(** * Meal and grocery planner: the orchestration core of [meal_planner.py]

    A shallow embedding of the helper functions [_parse_price] and
    [_extract_item_name], of the nested coroutine [get_price], of the
    retry loop of [orchestrator_tool] and of the prompt that [chat_cli]
    builds, with the theorems that settle what the specification says about
    them and, in Part IV, further properties of the tool as a whole.

    Modelling choices.
    - A Python [str] is a list of characters.  Characters outside ASCII are
      carried as the bytes of their UTF-8 encoding; such bytes are neither
      digits nor white space nor letters with a case here (Python's [\d],
      [\s], [str.isdigit] and [re.IGNORECASE] also know the non-ASCII
      digits, spaces and case pairs of Unicode, which this model leaves
      out).
    - The regular expressions of the program are values of a small
      syntax, run by a backtracking matcher that tries alternatives in the
      order Python's [re] does (leftmost start, greedy repetitions first).
    - A Python [float] is a binary64 number ([PrimFloat.float]); [float(s)]
      and the format [:.2f] are correctly rounded.
    - The two agents are external: each is an oracle that says what a call
      answers, indexed by the call (attempt, item, lookup number), so that a
      result never depends on how concurrent lookups interleave.
    - A raised exception is [None] in the [option] that every fallible
      function returns. *)

From Stdlib Require Import Ascii String ZArith Lia Bool Arith List.
From Stdlib Require Import Floats.PrimFloat Floats.SpecFloat Floats.FloatOps Floats.FloatAxioms.
From Stdlib Require Import DecimalString.
From Stdlib Require Uint63.
From Stdlib Require DecimalN.
Import ListNotations.

Set Implicit Arguments.
Set Warnings "-inexact-float".

(* ================================================================== *)
(** * Part I.  Definitions                                             *)
(* ================================================================== *)

(** ** Strings *)

Definition str := list ascii.

(** A string literal. *)
Definition lit (s : string) : str := list_ascii_of_string s.

Definition nl : ascii := ascii_of_nat 10.
Definition cr : ascii := ascii_of_nat 13.

Definition str_eqb (a b : str) : bool :=
  if list_eq_dec ascii_dec a b then true else false.

(** [str.isspace] on one character, which is also the class [\s]:
    TAB, LF, VT, FF, CR, the four separators FS GS RS US, and the space. *)
Definition isspace (c : ascii) : bool :=
  let n := nat_of_ascii c in
  ((9 <=? n) && (n <=? 13)) || ((28 <=? n) && (n <=? 31)) || (n =? 32).

(** The class [\d]. *)
Definition isdigit (c : ascii) : bool :=
  let n := nat_of_ascii c in (48 <=? n) && (n <=? 57).

(** Lower case of an ASCII letter, other characters unchanged. *)
Definition lower (c : ascii) : ascii :=
  let n := nat_of_ascii c in
  if (65 <=? n) && (n <=? 90) then ascii_of_nat (n + 32) else c.

(** The longest prefix of [s] in the class [p], and what follows it. *)
Fixpoint take_while (p : ascii -> bool) (s : str) : str :=
  match s with
  | a :: s' => if p a then a :: take_while p s' else []
  | [] => []
  end.

Fixpoint drop_while (p : ascii -> bool) (s : str) : str :=
  match s with
  | a :: s' => if p a then drop_while p s' else s
  | [] => []
  end.

(** [s.lstrip()], [s.rstrip()] *)
Definition lstrip (s : str) : str := drop_while isspace s.

Definition rstrip (s : str) : str := rev (lstrip (rev s)).

(** [s.strip()] *)
Definition strip (s : str) : str := rstrip (lstrip s).

(** [sep.join(parts)] *)
Fixpoint join (sep : str) (parts : list str) : str :=
  match parts with
  | [] => []
  | [p] => p
  | p :: ps => p ++ sep ++ join sep ps
  end.

(** ** Regular expressions *)

Inductive regex : Type :=
| Eps                          (* the empty pattern *)
| Chr (c : ascii)              (* a literal character *)
| Cls (p : ascii -> bool)      (* a character class: \d  \s  .  [...] *)
| Cat (r1 r2 : regex)          (* r1 r2 *)
| Opt (r : regex)              (* r?  greedy *)
| Star (r : regex)             (* r*  greedy *)
| Grp (r : regex).             (* ( r ): the capture group (group 1) *)

(** [r+] and [r{n}] *)
Definition Plus (r : regex) : regex := Cat r (Star r).

Fixpoint Rep (n : nat) (r : regex) : regex :=
  match n with
  | O => Eps
  | S n' => Cat r (Rep n' r)
  end.

(** A run of literal characters. *)
Fixpoint Word (w : str) : regex :=
  match w with
  | [] => Eps
  | c :: w' => Cat (Chr c) (Word w')
  end.

(** Literal comparison, under [re.IGNORECASE] when [ic] is set. *)
Definition chr_eq (ic : bool) (c a : ascii) : bool :=
  if ic then Ascii.eqb (lower c) (lower a) else Ascii.eqb c a.

Section Matcher.

Variable A : Type.

(** Whether the flag [re.IGNORECASE] is set. *)
Variable ic : bool.

(** What remains to be matched after a sub-pattern: it receives the rest
    of the subject and the text captured so far, and fails ([None]) to
    make the matcher backtrack. *)
Definition cont : Type := str -> option str -> option A.

(** Greedy repetition of [body]: one more iteration first, the
    continuation when that fails.  An iteration has to consume a
    character (no pattern of this program repeats an empty match); [n]
    bounds the iterations and is the length of the subject. *)
Fixpoint star_loop (body : str -> option str -> cont -> option A) (k : cont)
         (n : nat) (s : str) (g : option str) : option A :=
  match n with
  | O => k s g
  | S n' =>
      match body s g (fun s' g' =>
                        if length s' <? length s
                        then star_loop body k n' s' g' else None) with
      | Some x => Some x
      | None => k s g
      end
  end.

Fixpoint run (r : regex) (s : str) (g : option str) (k : cont) {struct r}
  : option A :=
  match r with
  | Eps => k s g
  | Chr c =>
      match s with
      | a :: s' => if chr_eq ic c a then k s' g else None
      | [] => None
      end
  | Cls p =>
      match s with
      | a :: s' => if p a then k s' g else None
      | [] => None
      end
  | Cat r1 r2 => run r1 s g (fun s' g' => run r2 s' g' k)
  | Opt r1 =>
      match run r1 s g k with
      | Some x => Some x
      | None => k s g
      end
  | Star r1 => star_loop (run r1) k (length s) s g
  | Grp r1 =>
      run r1 s g (fun s' _ => k s' (Some (firstn (length s - length s') s)))
  end.

End Matcher.

(** A match object: the subject is [m_before ++ m_text ++ m_after],
    [m_text] is [group(0)] and [m_group] is [group(1)]. *)
Record Match : Type := mkMatch {
  m_before : str;
  m_text : str;
  m_group : option str;
  m_after : str
}.

(** The pattern matched at the very start of [s] ([re.match]): what is left
    of [s] and the capture. *)
Definition match_at (ic : bool) (r : regex) (s : str) : option (str * option str) :=
  run ic r s None (fun s' g => Some (s', g)).

Definition shift (a : ascii) (m : Match) : Match :=
  mkMatch (a :: m_before m) (m_text m) (m_group m) (m_after m).

(** [re.search]: the match at the leftmost position that has one. *)
Fixpoint re_search (ic : bool) (r : regex) (s : str) : option Match :=
  match match_at ic r s with
  | Some (rest, g) =>
      Some (mkMatch [] (firstn (length s - length rest) s) g rest)
  | None =>
      match s with
      | [] => None
      | a :: s' => option_map (shift a) (re_search ic r s')
      end
  end.

(** [re.sub(r, '', s)]: every match deleted, scanning from the left and
    resuming after each match.  [n] bounds the number of matches by the
    length of the subject.  Neither pattern this is used with matches the
    empty string; should a match be empty the scan steps over one
    character, which deletes nothing, as in Python. *)
Fixpoint sub_loop (ic : bool) (r : regex) (n : nat) (s : str) : str :=
  match n with
  | O => s
  | S n' =>
      match re_search ic r s with
      | None => s
      | Some m =>
          match m_text m with
          | [] =>
              m_before m ++
              match m_after m with
              | [] => []
              | a :: t => a :: sub_loop ic r n' t
              end
          | _ :: _ => m_before m ++ sub_loop ic r n' (m_after m)
          end
      end
  end.

Definition re_sub_empty (ic : bool) (r : regex) (s : str) : str :=
  sub_loop ic r (length s) s.

(** [re.findall(r, s)] for a pattern with one group: [group(1)] of the
    successive matches ([None] if a match has no capture, which no pattern
    here allows). *)
Fixpoint findall_loop (ic : bool) (r : regex) (n : nat) (s : str) : option (list str) :=
  match n with
  | O => Some []
  | S n' =>
      match re_search ic r s with
      | None => Some []
      | Some m =>
          match m_group m with
          | None => None
          | Some g =>
              let rest :=
                match m_text m with
                | [] => tl (m_after m)
                | _ :: _ => m_after m
                end in
              option_map (cons g) (findall_loop ic r n' rest)
          end
      end
  end.

Definition re_findall (ic : bool) (r : regex) (s : str) : option (list str) :=
  findall_loop ic r (S (length s)) s.

(** ** The patterns of the program *)

Definition any_char (c : ascii) : bool := negb (Ascii.eqb c nl).       (* .      *)
Definition not_rparen (c : ascii) : bool := negb (Ascii.eqb c ")").    (* [^)]   *)
Definition not_nl (c : ascii) : bool := negb (Ascii.eqb c nl).         (* [^\n]  *)
Definition cr_or_nl (c : ascii) : bool :=                              (* [\r\n] *)
  Ascii.eqb c cr || Ascii.eqb c nl.

(** [\d+\.\d{2}] *)
Definition number_re : regex :=
  Cat (Plus (Cls isdigit)) (Cat (Chr ".") (Rep 2 (Cls isdigit))).

(** [\$?(\d+\.\d{2})] *)
Definition price_re : regex := Cat (Opt (Chr "$")) (Grp number_re).

(** [\s*\([^)]*\)] *)
Definition paren_re : regex :=
  Cat (Star (Cls isspace))
      (Cat (Chr "(") (Cat (Star (Cls not_rparen)) (Chr ")"))).

(** [- .+\n?], one line of the list *)
Definition line_re : regex :=
  Cat (Chr "-") (Cat (Chr " ") (Cat (Plus (Cls any_char)) (Opt (Chr nl)))).

(** [#+\s*Grocery List:?[\r\n]+], the header of the list *)
Definition header_re : regex :=
  Cat (Plus (Chr "#"))
      (Cat (Star (Cls isspace))
           (Cat (Word (lit "Grocery List"))
                (Cat (Opt (Chr ":")) (Plus (Cls cr_or_nl))))).

(** [#+\s*Grocery List:?[\r\n]+((?:- .+\n?)+)] *)
Definition grocery_re : regex := Cat header_re (Grp (Plus line_re)).

(** [- ([^\n]+)] *)
Definition item_re : regex :=
  Cat (Word (lit "- ")) (Grp (Plus (Cls not_nl))).

(** [Budget: \$?(\d+)] *)
Definition budget_re : regex :=
  Cat (Cat (Word (lit "Budget: ")) (Opt (Chr "$"))) (Grp (Plus (Cls isdigit))).

(** ** Floating-point numbers *)

(** Nearest integer to [p / q], ties to the even one ([0 <= p], [0 < q]). *)
Definition round_half_even (p q : Z) : Z :=
  let d := (p / q)%Z in
  match (2 * (p mod q) ?= q)%Z with
  | Lt => d
  | Gt => (d + 1)%Z
  | Eq => if Z.even d then d else (d + 1)%Z
  end.

(** [floor (log2 (p / q))] for [0 < p], [0 < q]. *)
Definition log2_ratio (p q : Z) : Z :=
  let d := (Z.log2 p - Z.log2 q)%Z in
  let ge := if (0 <=? d)%Z then (q * 2 ^ d <=? p)%Z else (q <=? p * 2 ^ (- d))%Z in
  if ge then d else (d - 1)%Z.

(** The binary64 number nearest to [p / q], ties to even, infinite on
    overflow: a 53-bit significand [m] at the exponent [e] of the ratio. *)
Definition float_of_ratio (p q : Z) : float :=
  if (p <=? 0)%Z then 0%float
  else
    let e := Z.max (log2_ratio p q - 52) (-1074) in
    let m :=
      if (0 <=? e)%Z then round_half_even p (q * 2 ^ e)
      else round_half_even (p * 2 ^ (- e)) q in
    if (m <=? 0)%Z then 0%float
    else SF2Prim (S754_finite false (Z.to_pos m) e).

Definition digit_val (c : ascii) : Z := Z.of_nat (nat_of_ascii c - 48).

(** The number a run of decimal digits writes. *)
Definition digits_val (ds : str) : Z :=
  fold_left (fun acc c => (10 * acc + digit_val c)%Z) ds 0%Z.

Fixpoint span_digits (s : str) : str * str :=
  match s with
  | c :: s' =>
      if isdigit c then let (ds, rest) := span_digits s' in (c :: ds, rest)
      else ([], s)
  | [] => ([], [])
  end.

(** [float(s)] for a plain decimal numeral [s]: digits, then possibly a
    point and more digits.  The value is correctly rounded, as CPython's
    is.  [None] stands for every other string: Python raises [ValueError]
    on most of them, and the program never passes one. *)
Definition py_float (s : str) : option float :=
  let (ip, rest) := span_digits s in
  match ip, rest with
  | [], _ => None
  | _ :: _, [] => Some (float_of_ratio (digits_val ip) 1)
  | _ :: _, c :: rest' =>
      if Ascii.eqb c "." then
        let (fp, rest'') := span_digits rest' in
        match rest'' with
        | [] => Some (float_of_ratio (digits_val (ip ++ fp)) (10 ^ Z.of_nat (length fp)))
        | _ :: _ => None
        end
      else None
  end.

Definition decimal (z : Z) : str :=
  lit (NilZero.string_of_uint (N.to_uint (Z.to_N z))).

Definition two_digits (z : Z) : str :=
  if (z <? 10)%Z then "0"%char :: decimal z else decimal z.

(** [format(x, '.2f')]: the decimal with two places nearest to the exact
    value of [x], ties to even. *)
Definition fmt2 (x : float) : str :=
  match Prim2SF x with
  | S754_nan => lit "nan"
  | S754_infinity s => (if s then lit "-" else []) ++ lit "inf"
  | S754_zero s => (if s then lit "-" else []) ++ lit "0.00"
  | S754_finite s m e =>
      let h :=
        if (0 <=? e)%Z then (Zpos m * 2 ^ e * 100)%Z
        else round_half_even (Zpos m * 100) (2 ^ (- e)) in
      (if s then lit "-" else []) ++
      decimal (h / 100) ++ lit "." ++ two_digits (h mod 100)
  end.

(** [sum(xs)] over floats: the items added from left to right.  (CPython
    from 3.12 on also carries the rounding errors of the additions along;
    up to two items the sum is the same.) *)
Definition py_sum (xs : list float) : float := fold_left PrimFloat.add xs 0%float.

(** ** Python values and exceptions *)

(** The values that reach [_parse_price] and that [orchestrator_tool]
    returns. *)
Inductive pyval : Type :=
| PyStr (s : str)
| PyInt (z : Z)
| PyFloat (x : float)
| PyNone.

(** A computation that may raise: [None] is the raised exception. *)
Definition exn (A : Type) : Type := option A.

Definition bind {A B : Type} (e : exn A) (k : A -> exn B) : exn B :=
  match e with
  | Some a => k a
  | None => None
  end.

Notation "x <- e ;; k" := (bind e (fun x => k))
  (at level 61, e at next level, right associativity).

Fixpoint sequence {A : Type} (l : list (exn A)) : exn (list A) :=
  match l with
  | [] => Some []
  | e :: l' => a <- e ;; r <- sequence l' ;; Some (a :: r)
  end.

(** ** Helper functions *)

(** [_parse_price(text)] *)
Definition _parse_price (text : pyval) : exn float :=
  match text with
  | PyStr s =>
      match re_search false price_re s with
      | Some m => g <- m_group m ;; py_float g
      | None => Some 0%float
      end
  | _ => Some 0%float
  end.

(** [_extract_item_name(item_with_quantity)] *)
Definition _extract_item_name (item_with_quantity : str) : str :=
  strip (re_sub_empty false paren_re item_with_quantity).

(** ** The agents *)

(** What the two agents answer.  The planner is called once per attempt;
    a lookup is identified by the attempt, the position of the item in the
    grocery list and the number of the lookup for that item (0 the full
    query, 1 the fallback).  [final_output] of the search agent is any
    Python value, that of the planner a string. *)
Record World : Type := mkWorld {
  meal_planner_agent : nat -> str -> str;
  web_search_agent : nat -> nat -> nat -> str -> pyval
}.

(** ** Pricing one item: [get_price] *)

Definition price_query (name : str) : str :=
  lit "Price of " ++ name ++ lit " at Walmart in Watertown, Connecticut".

(** [get_price(item_text)], with [run_web_search n q] the answer to the
    [n]-th lookup of this item; the result is the price and the queries
    that were sent, in order. *)
Definition get_price (run_web_search : nat -> str -> pyval) (item_text : str)
  : exn (float * list str) :=
  let query_full := price_query item_text in
  let result_full := run_web_search 0 query_full in
  price <- _parse_price result_full ;;
  if PrimFloat.eqb price 0 then
    let item_name_only := _extract_item_name item_text in
    if negb (str_eqb item_name_only item_text) then
      let query_fallback := price_query item_name_only in
      let result_fallback := run_web_search 1 query_fallback in
      price' <- _parse_price result_fallback ;;
      Some (price', [query_full; query_fallback])
    else Some (price, [query_full])
  else Some (price, [query_full]).

(** The coroutines [get_price(item)] of the items from position [i] on. *)
Fixpoint price_tasks (web : nat -> nat -> str -> pyval) (i : nat) (items : list str)
  : list (exn (float * list str)) :=
  match items with
  | [] => []
  | item :: items' => get_price (web i) item :: price_tasks web (S i) items'
  end.

(** [asyncio.gather] over [get_price(item)] for the items of
    [grocery_list_items]: the results in the order of the items. *)
Definition gather_prices (web : nat -> nat -> str -> pyval) (items : list str)
  : exn (list (float * list str)) :=
  sequence (price_tasks web 0 items).

(** ** One attempt of [orchestrator_tool] *)

Definition max_retries : nat := 3.

(** Lines 104 and 118: the search for the list and the items of its block;
    [Some None] when [match] is [None]. *)
Definition grocery_list_items (mealplan_text : str) : exn (option (list str)) :=
  match re_search true grocery_re mealplan_text with
  | None => Some None
  | Some m =>
      block <- m_group m ;;
      items <- re_findall false item_re block ;;
      Some (Some items)
  end.

(** Line 150: the plan without its grocery list. *)
Definition final_report_text (mealplan_text : str) : str :=
  strip (re_sub_empty true grocery_re mealplan_text).

(** Line 149 *)
Definition priced_line (ip : str * float) : str :=
  lit "- " ++ fst ip ++ lit ": $" ++ fmt2 (snd ip).

Definition priced_list_text (items : list str) (prices_found : list float) : str :=
  join [nl] (map priced_line (combine items prices_found)).

(** The local variables of a priced attempt. *)
Record Priced : Type := mkPriced {
  p_items : list str;
  p_prices : list float;
  p_queries : list (list str);
  p_total : float;
  p_list_text : str;
  p_narrative : str
}.

(** Lines 118 to 150 for a plan whose list has the items [items]. *)
Definition price_plan (web : nat -> nat -> str -> pyval) (mealplan_text : str)
           (items : list str) : exn Priced :=
  results <- gather_prices web items ;;
  let prices_found := map fst results in
  Some (mkPriced items prices_found (map snd results) (py_sum prices_found)
                 (priced_list_text items prices_found)
                 (final_report_text mealplan_text)).

Definition initial_prompt (user_input : str) : str :=
  lit "User's request: " ++ user_input ++ lit ".".

Definition format_retry_prompt (user_input : str) : str :=
  lit "Your previous response was not formatted correctly. Please try again, " ++
  lit "ensuring the grocery list starts with '### Grocery List' and that all items have quantities. " ++
  lit "Original request: " ++ user_input.

Definition extraction_error (mealplan_text : str) : str :=
  mealplan_text ++ [nl; nl] ++
  lit "⚠️ **Error: Could not extract a grocery list to check prices after several attempts.**".

Definition accepted_report (p : Priced) : str :=
  p_narrative p ++ [nl; nl] ++ lit "---" ++ [nl; nl] ++
  lit "## 🛒 Priced Grocery List (Total: $" ++ fmt2 (p_total p) ++ lit ")" ++
  [nl; nl] ++ p_list_text p.

Definition revision_prompt (user_input : str) (p : Priced) : str :=
  lit "Your last plan was too expensive at $" ++ fmt2 (p_total p) ++
  lit ". The grocery list was:" ++ [nl] ++ p_list_text p ++ [nl] ++
  lit "Please generate a NEW, cheaper meal plan. Remember to follow all rules about meal repetition and item limits. " ++
  lit "Original request was: " ++ user_input.

Definition best_effort_report (budget : float) (p : Priced) : str :=
  lit "⚠️ **Failed to create a plan within the $" ++ fmt2 budget ++
  lit " budget after " ++ decimal (Z.of_nat max_retries) ++ lit " attempts.**" ++ [nl] ++
  lit "The cheapest plan generated had a cost of $" ++ fmt2 (p_total p) ++ lit "." ++
  [nl; nl] ++
  lit "Here is the final meal plan and its priced list:" ++ [nl] ++
  p_narrative p ++ [nl; nl] ++
  lit "## 🛒 Priced Grocery List (Total: $" ++ fmt2 (p_total p) ++ lit ")" ++
  [nl; nl] ++ p_list_text p.

(** How one pass through the body of the loop ends. *)
Inductive step : Type :=
| Return (report : str)        (* a [return] statement *)
| Next (current_prompt : str). (* the next iteration, with its prompt *)

(** The body of the [for] loop, lines 92 to 172. *)
Definition attempt_body (w : World) (user_input : str) (budget : float)
           (attempt : nat) (current_prompt : str) : exn step :=
  let mealplan_text := meal_planner_agent w attempt current_prompt in
  found <- grocery_list_items mealplan_text ;;
  match found with
  | None =>
      if attempt <? max_retries - 1
      then Some (Next (format_retry_prompt user_input))
      else Some (Return (extraction_error mealplan_text))
  | Some items =>
      p <- price_plan (web_search_agent w attempt) mealplan_text items ;;
      if PrimFloat.leb (p_total p) budget
      then Some (Return (accepted_report p))
      else if attempt <? max_retries - 1
           then Some (Next (revision_prompt user_input p))
           else Some (Return (best_effort_report budget p))
  end.

(** What a run of the tool leaves behind: the value returned and the
    prompts sent to the planner, in order. *)
Record Run : Type := mkRun {
  returned : pyval;
  plan_calls : list str
}.

(** [for attempt in range(max_retries)], from [attempt] on with [todo]
    iterations left; a loop that runs out returns [None]. *)
Fixpoint for_attempts (w : World) (user_input : str) (budget : float)
         (todo attempt : nat) (current_prompt : str) (calls : list str) : exn Run :=
  match todo with
  | O => Some (mkRun PyNone calls)
  | S todo' =>
      st <- attempt_body w user_input budget attempt current_prompt ;;
      match st with
      | Return report => Some (mkRun (PyStr report) (calls ++ [current_prompt]))
      | Next prompt' =>
          for_attempts w user_input budget todo' (S attempt) prompt'
                       (calls ++ [current_prompt])
      end
  end.

(** Lines 85 and 86 *)
Definition parse_budget (user_input : str) : exn float :=
  match re_search false budget_re user_input with
  | Some budget_match => g <- m_group budget_match ;; py_float g
  | None => Some 100%float
  end.

(** [orchestrator_tool(user_input)] *)
Definition orchestrator_tool (w : World) (user_input : str) : exn Run :=
  budget <- parse_budget user_input ;;
  for_attempts w user_input budget max_retries 0 (initial_prompt user_input) [].

(** ** The command line: [chat_cli] *)




(* ================================================================== *)
(** * Part II.  What the patterns match, read directly                 *)
(* ================================================================== *)

(** The functions of this part say, without the matcher, what each
    pattern matches at the start of a string; Part III proves that the
    matcher computes exactly them. *)

(** [\$?(\d+\.\d{2})] at the start of [s]: the number and what follows. *)
Definition price_at (s : str) : option (str * str) :=
  let s1 := match s with
            | a :: t => if Ascii.eqb "$" a then t else s
            | [] => s
            end in
  match take_while isdigit s1, drop_while isdigit s1 with
  | (_ :: _) as ds, dot :: d1 :: d2 :: rest =>
      if Ascii.eqb "." dot && isdigit d1 && isdigit d2
      then Some (ds ++ [dot; d1; d2], rest) else None
  | _, _ => None
  end.

(** [\s*\([^)]*\)] at the start of [s]: what follows the closing
    parenthesis. *)
Definition paren_at (s : str) : option str :=
  match drop_while isspace s with
  | a :: t =>
      if Ascii.eqb "(" a then
        match drop_while not_rparen t with
        | _ :: rest => Some rest
        | [] => None
        end
      else None
  | [] => None
  end.

(** A word at the start of [s], compared as [chr_eq] does: what follows. *)
Fixpoint word_at (ic : bool) (w s : str) : option str :=
  match w with
  | [] => Some s
  | c :: w' =>
      match s with
      | a :: s' => if chr_eq ic c a then word_at ic w' s' else None
      | [] => None
      end
  end.

(** The header [#+\s*Grocery List:?[\r\n]+] at the start of [s], case
    ignored: what follows it. *)
Definition header_at (s : str) : option str :=
  match s with
  | a :: t =>
      if Ascii.eqb "#" a then
        match word_at true (lit "Grocery List")
                      (drop_while isspace (drop_while (Ascii.eqb "#") t)) with
        | Some s3 =>
            let s4 := match s3 with
                      | c :: u => if Ascii.eqb ":" c then u else s3
                      | [] => s3
                      end in
            match s4 with
            | c :: u => if cr_or_nl c then Some (drop_while cr_or_nl u) else None
            | [] => None
            end
        | None => None
        end
      else None
  | [] => None
  end.

(** One line [- .+\n?] at the start of [s]: its item and what follows. *)
Definition line_at (s : str) : option (str * str) :=
  match s with
  | a :: b :: c :: t =>
      if Ascii.eqb "-" a && Ascii.eqb " " b && any_char c then
        Some (c :: take_while any_char t,
              match drop_while any_char t with
              | e :: r => if Ascii.eqb nl e then r else e :: r
              | [] => []
              end)
      else None
  | _ => None
  end.

(** The longest run of lines at the start of [s] (at most [n] of them):
    the items and what follows the run. *)
Fixpoint lines_at (n : nat) (s : str) : list str * str :=
  match n with
  | O => ([], s)
  | S n' =>
      match line_at s with
      | Some (item, r) => let (items, r') := lines_at n' r in (item :: items, r')
      | None => ([], s)
      end
  end.

(** The whole pattern of the grocery list at the start of [s]: the items
    of the block, the text of the block, and what follows it. *)
Definition block_at (s : str) : option (list str * str * str) :=
  match header_at s with
  | Some s1 =>
      match line_at s1 with
      | Some (item, r) =>
          let (items, rest) := lines_at (length r) r in
          Some (item :: items, firstn (length s1 - length rest) s1, rest)
      | None => None
      end
  | None => None
  end.

(** [- ([^\n]+)] at the start of [s]. *)
Definition item_at (s : str) : option (str * str) :=
  match s with
  | a :: b :: c :: t =>
      if Ascii.eqb "-" a && Ascii.eqb " " b && not_nl c
      then Some (c :: take_while not_nl t, drop_while not_nl t) else None
  | _ => None
  end.

(** [Budget: \$?(\d+)] at the start of [s]: the digits and what follows. *)
Definition budget_at (s : str) : option (str * str) :=
  match word_at false (lit "Budget: ") s with
  | Some s1 =>
      let s2 := match s1 with
                | a :: t => if Ascii.eqb "$" a then t else s1
                | [] => s1
                end in
      match take_while isdigit s2 with
      | [] => None
      | ds => Some (ds, drop_while isdigit s2)
      end
  | None => None
  end.

(** The first position of [s] at which [f] finds something: the text
    before it and what [f] found. *)
Fixpoint first_at {B : Type} (f : str -> option B) (s : str) : option (str * B) :=
  match f s with
  | Some b => Some ([], b)
  | None =>
      match s with
      | [] => None
      | a :: s' =>
          match first_at f s' with
          | Some (pre, b) => Some (a :: pre, b)
          | None => None
          end
      end
  end.

(** ** The words of the specification *)

(** A price as the specification describes it: an optional currency
    symbol, digits, a decimal point and exactly two digits; [num] is the
    price without the symbol. *)
Definition price_text (w num : str) : Prop :=
  exists cur ds d1 d2,
    w = cur ++ num /\ num = ds ++ ["."%char; d1; d2] /\
    (cur = [] \/ cur = ["$"%char]) /\
    ds <> [] /\ forallb isdigit ds = true /\
    isdigit d1 = true /\ isdigit d2 = true.

(** The numeric value of such a number: its digits count hundredths. *)
Definition price_value (num : str) : float :=
  float_of_ratio (digits_val (filter isdigit num)) 100.

(** A budget as the pattern reads it: the word, an optional currency
    symbol, and a run of digits [ds] that no digit follows. *)
Definition budget_text (w ds : str) : Prop :=
  exists cur,
    w = lit "Budget: " ++ cur ++ ds /\
    (cur = [] \/ cur = ["$"%char]) /\
    ds <> [] /\ forallb isdigit ds = true.

Definition starts_with_digit (s : str) : bool :=
  match s with
  | a :: _ => isdigit a
  | [] => false
  end.



(** [deletes s out]: [out] is [s] without some stretches, each of them a
    parenthesized segment (an opening parenthesis, characters other than the
    closing one, the closing parenthesis) together with all the white space
    that stands before it. *)
Inductive deletes : str -> str -> Prop :=
| deletes_none (s : str) : deletes s s
| deletes_segment (kept ws body rest out : str) :
    forallb isspace ws = true ->
    forallb not_rparen body = true ->
    (forall k c, kept = k ++ [c] -> isspace c = false) ->
    deletes rest out ->
    deletes (kept ++ ws ++ "("%char :: body ++ ")"%char :: rest) (kept ++ out).

(** The header of the grocery list as the pattern reads it: one or more
    "#", white space, the words "Grocery List" in any case, an optional
    colon, one or more line breaks. *)
Definition is_header (h : str) : Prop :=
  exists hs ws gl colon nls,
    h = hs ++ ws ++ gl ++ colon ++ nls /\
    hs <> [] /\ forallb (Ascii.eqb "#") hs = true /\
    forallb isspace ws = true /\
    map lower gl = lit "grocery list" /\
    (colon = [] \/ colon = [":"%char]) /\
    nls <> [] /\ forallb cr_or_nl nls = true.

(** An item: at least one character, none of them a line feed. *)
Definition is_item (item : str) : Prop :=
  item <> [] /\ forallb not_nl item = true.

(** The lines "- item" of a list, a line feed between them and, when
    [last_nl] is set, one more after the last. *)
Definition list_block (items : list str) (last_nl : bool) : str :=
  join [nl] (map (fun item => lit "- " ++ item) items) ++
  (if last_nl then [nl] else []).



(** What a run of lines is: [s] starts with the lines of [items], [rest]
    follows them and does not start with one more line. *)
Definition lines_spec (s : str) (items : list str) (rest : str) : Prop :=
  Forall is_item items /\ line_at rest = None /\
  ((items = [] /\ rest = s) \/
   (items <> [] /\
    exists last_nl, s = list_block items last_nl ++ rest /\
                    (last_nl = false -> rest = []))).


(** [reaches w user_input budget attempt current_prompt calls]: a run of
    the tool comes to the iteration [attempt] of its loop with the prompt
    [current_prompt], after the planner calls [calls]. *)
Inductive reaches (w : World) (user_input : str) (budget : float)
  : nat -> str -> list str -> Prop :=
| reaches_first : reaches w user_input budget 0 (initial_prompt user_input) []
| reaches_next (attempt : nat) (current_prompt : str) (calls : list str)
               (prompt' : str) :
    reaches w user_input budget attempt current_prompt calls ->
    attempt_body w user_input budget attempt current_prompt = Some (Next prompt') ->
    reaches w user_input budget (S attempt) prompt' (calls ++ [current_prompt]).

(** ** How a run goes on and how it ends *)

(** How a run of the tool ends, as a property of the iteration [attempt]
    that returns, of the plan [mealplan_text] it got and of the budget. *)
Inductive outcome (w : World) (budget : float) (attempt : nat)
          (mealplan_text : str) : str -> Prop :=
| outcome_accepted (items : list str) (p : Priced) :
    grocery_list_items mealplan_text = Some (Some items) ->
    price_plan (web_search_agent w attempt) mealplan_text items = Some p ->
    PrimFloat.leb (p_total p) budget = true ->
    outcome w budget attempt mealplan_text (accepted_report p)
| outcome_best_effort (items : list str) (p : Priced) :
    attempt = max_retries - 1 ->
    grocery_list_items mealplan_text = Some (Some items) ->
    price_plan (web_search_agent w attempt) mealplan_text items = Some p ->
    PrimFloat.leb (p_total p) budget = false ->
    outcome w budget attempt mealplan_text (best_effort_report budget p)
| outcome_no_list :
    attempt = max_retries - 1 ->
    grocery_list_items mealplan_text = Some None ->
    outcome w budget attempt mealplan_text (extraction_error mealplan_text).

(** Why the planner is called again after the iteration [attempt], and with
    which prompt: its plan had no grocery list, or a list whose total
    exceeds the budget. *)
Inductive reprompt (w : World) (user_input : str) (budget : float) (attempt : nat)
          (mealplan_text : str) : str -> Prop :=
| reprompt_format :
    grocery_list_items mealplan_text = Some None ->
    reprompt w user_input budget attempt mealplan_text
             (format_retry_prompt user_input)
| reprompt_revision (items : list str) (p : Priced) :
    grocery_list_items mealplan_text = Some (Some items) ->
    price_plan (web_search_agent w attempt) mealplan_text items = Some p ->
    PrimFloat.leb (p_total p) budget = false ->
    reprompt w user_input budget attempt mealplan_text
             (revision_prompt user_input p).

(** ** Budgets in a text, and floats that are not negative *)


(** A float that is zero, positive or plus infinity: neither negative nor
    not-a-number. *)
Definition sf_nonneg (x : spec_float) : bool :=
  match x with
  | S754_zero false | S754_infinity false | S754_finite false _ _ => true
  | _ => false
  end.

Definition nonneg (x : float) : bool := sf_nonneg (Prim2SF x).

(** ** Decimal numerals *)




(** ** The worked examples of the specification *)

(** The stub of the pricing example: "$3.50" for the query of
    "Milk (1 gallon)"; for the query of "Rice", "no data" to a first lookup
    and "$1.20" to a second one. *)
Definition rice_stub (item n : nat) (query : str) : pyval :=
  if str_eqb query (price_query (lit "Milk (1 gallon)")) then PyStr (lit "$3.50")
  else if str_eqb query (price_query (lit "Rice")) then
    match n with
    | O => PyStr (lit "no data")
    | S _ => PyStr (lit "$1.20")
    end
  else PyStr (lit "no data").

(** The same stub for an item "Rice (2 lb)": "no data" for its full query,
    "$1.20" for the fallback query of "Rice". *)
Definition rice_2lb_stub (item n : nat) (query : str) : pyval :=
  if str_eqb query (price_query (lit "Milk (1 gallon)")) then PyStr (lit "$3.50")
  else if str_eqb query (price_query (lit "Rice")) then PyStr (lit "$1.20")
  else PyStr (lit "no data").

(** A search agent that answers from a price list. *)
Fixpoint answer (prices : list (string * string)) (query : str) : pyval :=
  match prices with
  | [] => PyStr (lit "no data")
  | (item, price) :: prices' =>
      if str_eqb query (price_query (lit item)) then PyStr (lit price)
      else answer prices' query
  end.

Definition shelf : list (string * string) :=
  [("Salmon (2 lb)", "$20.00"); ("Chicken (3 lb)", "$18.00");
   ("Chicken (2 lb)", "about $15.00 a pack"); ("Rice (5 lb)", "$10.00");
   ("Beans (4 cans)", "$9.00"); ("Beans (2 cans)", "$8.00");
   ("Eggs (dozen)", "$8.00")]%string.

Definition plan_with (title : string) (items : list string) : str :=
  lit title ++ [nl] ++ lit "### Grocery List" ++ [nl] ++
  concat (map (fun item => lit "- " ++ lit item ++ [nl]) items).

(** Budget 20.0; the plans cost 25.0, then 18.0. *)
Definition accept_world : World :=
  mkWorld (fun attempt _ =>
             match attempt with
             | O => plan_with "Plan A" ["Chicken (2 lb)"; "Rice (5 lb)"]%string
             | S _ => plan_with "Plan B" ["Beans (2 cans)"; "Rice (5 lb)"]%string
             end)
          (fun _ _ _ => answer shelf).

(** Budget 10.0; the plans cost 30.0, 28.0 and 27.0. *)
Definition exhaust_world : World :=
  mkWorld (fun attempt _ =>
             match attempt with
             | O => plan_with "Plan A" ["Salmon (2 lb)"; "Rice (5 lb)"]%string
             | S O => plan_with "Plan B" ["Chicken (3 lb)"; "Rice (5 lb)"]%string
             | S (S _) =>
                 plan_with "Plan C" ["Beans (4 cans)"; "Rice (5 lb)"; "Eggs (dozen)"]%string
             end)
          (fun _ _ _ => answer shelf).

(** A planner whose plans never have a grocery list. *)
Definition no_list_world : World :=
  mkWorld (fun _ _ => lit "Day 1: rice and beans. Day 2: rice and beans.")
          (fun _ _ _ _ => PyStr (lit "$1.00")).

(** A planner with a list of two items, and a search agent that never
    finds a price. *)
Definition no_price_world : World :=
  mkWorld (fun _ _ => lit "Day 1: rice and beans.
### Grocery List
- Rice (2 lb)
- Beans
")
          (fun _ _ _ _ => PyStr (lit "no data")).

(* ================================================================== *)
(** * Part III.  The matcher on the patterns of the program            *)
(* ================================================================== *)

Unset Implicit Arguments.

(** A fact about one character, checked on the 256 of them. *)
Ltac ascii_cases a :=
  destruct a as [[|] [|] [|] [|] [|] [|] [|] [|]]; try reflexivity; try discriminate.

(** ** Lists of characters *)

Lemma take_drop_while (p : ascii -> bool) (s : str) :
  take_while p s ++ drop_while p s = s.
Proof.
  induction s as [|a s IH]; simpl; [reflexivity|].
  destruct (p a); simpl; [now rewrite IH | reflexivity].
Qed.

Lemma take_while_all (p : ascii -> bool) (s : str) :
  forallb p (take_while p s) = true.
Proof.
  induction s as [|a s IH]; simpl; [reflexivity|].
  destruct (p a) eqn:E; simpl; [now rewrite E | reflexivity].
Qed.

Lemma drop_while_head (p : ascii -> bool) (s : str) (a : ascii) (t : str) :
  drop_while p s = a :: t -> p a = false.
Proof.
  induction s as [|b s IH]; simpl; [discriminate|].
  destruct (p b) eqn:E; [exact IH|].
  intros H; injection H as -> _; exact E.
Qed.

Lemma length_drop_while (p : ascii -> bool) (s : str) :
  length (drop_while p s) <= length s.
Proof.
  induction s as [|a s IH]; simpl; [lia|].
  destruct (p a); simpl; lia.
Qed.

Lemma take_while_app_stop (p : ascii -> bool) (u : str) (a : ascii) (t : str) :
  forallb p u = true -> p a = false -> take_while p (u ++ a :: t) = u.
Proof.
  intros Hu Ha; induction u as [|b u IH]; simpl in *.
  - now rewrite Ha.
  - apply andb_true_iff in Hu as [Hb Hu]; rewrite Hb, (IH Hu); reflexivity.
Qed.

Lemma drop_while_app_stop (p : ascii -> bool) (u : str) (a : ascii) (t : str) :
  forallb p u = true -> p a = false -> drop_while p (u ++ a :: t) = a :: t.
Proof.
  intros Hu Ha; induction u as [|b u IH]; simpl in *.
  - now rewrite Ha.
  - apply andb_true_iff in Hu as [Hb Hu]; rewrite Hb; exact (IH Hu).
Qed.

Lemma take_while_all_id (p : ascii -> bool) (u : str) :
  forallb p u = true -> take_while p u = u /\ drop_while p u = [].
Proof.
  induction u as [|b u IH]; simpl; [now split|].
  intros H; apply andb_true_iff in H as [Hb Hu]; rewrite Hb.
  destruct (IH Hu) as [-> ->]; now split.
Qed.

Lemma firstn_length_app (u v : str) :
  firstn (length (u ++ v) - length v) (u ++ v) = u.
Proof.
  rewrite length_app, Nat.add_sub.
  rewrite firstn_app, Nat.sub_diag, firstn_all; simpl; apply app_nil_r.
Qed.

(** ** Greedy repetition of a one-character pattern *)

Section StarOfClass.

Variables (A : Type) (p : ascii -> bool).
Variable body : str -> option str -> cont A -> option A.

Hypothesis body_one : forall s g k,
  body s g k = match s with
               | a :: s' => if p a then k s' g else None
               | [] => None
               end.

(** The repetition takes every character of the class and hands over to
    its continuation there, as soon as giving characters back cannot
    help: whenever the continuation fails after the whole run it fails
    after a shorter one too. *)
Lemma star_loop_class (k : cont A) (g : option str) (n : nat) (s : str) :
  length s <= n ->
  (forall a s', p a = true -> length (a :: s') <= length s ->
                k (drop_while p s') g = None -> k (a :: s') g = None) ->
  star_loop body k n s g = k (drop_while p s) g.
Proof.
  revert s; induction n as [|n IH]; intros s Hlen Hk.
  - destruct s; [reflexivity | simpl in Hlen; lia].
  - simpl star_loop; rewrite body_one.
    destruct s as [|a s']; [reflexivity|].
    simpl drop_while; destruct (p a) eqn:Hp; [|reflexivity].
    assert (Hlt : (length s' <? length (a :: s')) = true)
      by (apply Nat.ltb_lt; simpl; lia).
    rewrite Hlt, IH.
    + destruct (k (drop_while p s') g) eqn:E; [reflexivity|].
      apply Hk; auto.
    + simpl in Hlen; lia.
    + intros b t Hb Hbt; apply Hk; auto. simpl in *; lia.
Qed.

End StarOfClass.

Lemma run_cls_one (A : Type) (ic : bool) (p : ascii -> bool) :
  forall s g (k : cont A),
    run ic (Cls p) s g k = match s with
                           | a :: s' => if p a then k s' g else None
                           | [] => None
                           end.
Proof. reflexivity. Qed.

Lemma run_chr_one (A : Type) (ic : bool) (c : ascii) :
  forall s g (k : cont A),
    run ic (Chr c) s g k = match s with
                           | a :: s' => if chr_eq ic c a then k s' g else None
                           | [] => None
                           end.
Proof. reflexivity. Qed.

(** A word of the pattern, read by [word_at]. *)
Lemma run_word (A : Type) (ic : bool) (w : str) :
  forall s g (k : cont A),
    run ic (Word w) s g k = match word_at ic w s with
                            | Some s' => k s' g
                            | None => None
                            end.
Proof.
  induction w as [|c w IH]; intros s g k; [reflexivity|].
  simpl Word; simpl word_at. change (run ic (Cat (Chr c) (Word w)) s g k)
    with (run ic (Chr c) s g (fun s' g' => run ic (Word w) s' g' k)).
  rewrite run_chr_one. destruct s as [|a s']; [reflexivity|].
  destruct (chr_eq ic c a); [apply IH | reflexivity].
Qed.

(** ** The patterns, one by one *)

Lemma run_plus_class (A : Type) (ic : bool) (p : ascii -> bool)
      (s : str) (g : option str) (k : cont A) :
  (forall a s', p a = true -> length (a :: s') < length s ->
                k (drop_while p s') g = None -> k (a :: s') g = None) ->
  run ic (Plus (Cls p)) s g k =
  match s with
  | a :: s' => if p a then k (drop_while p s') g else None
  | [] => None
  end.
Proof.
  intros Hk. unfold Plus.
  change (run ic (Cat (Cls p) (Star (Cls p))) s g k)
    with (run ic (Cls p) s g
              (fun s' g' => star_loop (run ic (Cls p)) k (length s') s' g')).
  rewrite run_cls_one. destruct s as [|a s']; [reflexivity|].
  destruct (p a); [|reflexivity].
  apply star_loop_class with (p := p); auto using run_cls_one.
  intros b t Hb Hbt; apply Hk; auto. simpl in *; lia.
Qed.

Lemma digit_not_dot (a : ascii) : isdigit a = true -> Ascii.eqb "." a = false.
Proof.
  intros H; destruct (Ascii.eqb_spec "."%char a) as [<-|]; [discriminate H | reflexivity].
Qed.


Lemma run_number (A : Type) (s : str) (g : option str) (k : cont A) :
  run false (Grp number_re) s g k =
  match take_while isdigit s, drop_while isdigit s with
  | (_ :: _) as ds, dot :: d1 :: d2 :: rest =>
      if Ascii.eqb "." dot && isdigit d1 && isdigit d2
      then k rest (Some (ds ++ [dot; d1; d2])) else None
  | _, _ => None
  end.
Proof.
  change (run false (Grp number_re) s g k)
    with (run false (Plus (Cls isdigit)) s g
              (fun s' g' => run false (Cat (Chr ".") (Rep 2 (Cls isdigit))) s' g'
                 (fun s' _ => k s' (Some (firstn (length s - length s') s))))).
  rewrite run_plus_class.
  2:{ intros a s' Ha _ _. cbn [run]. unfold chr_eq. now rewrite (digit_not_dot _ Ha). }
  destruct s as [|a s']; [reflexivity|].
  simpl take_while; simpl drop_while.
  destruct (isdigit a) eqn:Ha; [|reflexivity].
  pose proof (take_drop_while isdigit s') as Hs.
  remember (take_while isdigit s') as ds eqn:Eds.
  remember (drop_while isdigit s') as dr eqn:Edr.
  clear Eds Edr; subst s'.
  destruct dr as [|dot [|d1 [|d2 rest]]]; try reflexivity.
  - cbn [run Rep]. destruct (chr_eq false "." dot); reflexivity.
  - cbn [run Rep]. destruct (chr_eq false "." dot); [|reflexivity].
    destruct (isdigit d1); reflexivity.
  - cbn [run Rep]. unfold chr_eq.
    destruct (Ascii.eqb "." dot); [|reflexivity].
    destruct (isdigit d1); [|reflexivity].
    destruct (isdigit d2); [|reflexivity]. simpl andb. cbv iota.
    change (a :: ds ++ dot :: d1 :: d2 :: rest)
      with ((a :: ds) ++ [dot; d1; d2] ++ rest).
    now rewrite app_assoc, firstn_length_app.
Qed.

Lemma match_at_price (s : str) :
  match_at false price_re s =
  match price_at s with
  | Some (num, rest) => Some (rest, Some num)
  | None => None
  end.
Proof.
  unfold match_at, price_re, price_at. fold number_re.
  change (run false (Cat (Opt (Chr "$")) (Grp number_re)) s None
            (fun s' g => Some (s', g)))
    with (match run false (Chr "$") s None
                    (fun s' g' => run false (Grp number_re) s' g' (fun s' g => Some (s', g)))
          with
          | Some x => Some x
          | None => run false (Grp number_re) s None (fun s' g => Some (s', g))
          end).
  rewrite run_chr_one. unfold chr_eq.
  destruct s as [|a t].
  - reflexivity.
  - destruct (Ascii.eqb "$" a) eqn:Ea.
    + rewrite !run_number.
      apply Ascii.eqb_eq in Ea; subst a. simpl take_while at 3. cbv iota.
      destruct (take_while isdigit t) as [|d ds]; [reflexivity|].
      destruct (drop_while isdigit t) as [|dot [|d1 [|d2 rest]]]; try reflexivity.
      destruct (Ascii.eqb "." dot && isdigit d1 && isdigit d2); reflexivity.
    + rewrite run_number.
      destruct (take_while isdigit (a :: t)) as [|d ds]; [reflexivity|].
      destruct (drop_while isdigit (a :: t)) as [|dot [|d1 [|d2 rest]]]; try reflexivity.
      destruct (Ascii.eqb "." dot && isdigit d1 && isdigit d2); reflexivity.
Qed.

Lemma run_star_class (A : Type) (ic : bool) (p : ascii -> bool)
      (s : str) (g : option str) (k : cont A) :
  (forall a s', p a = true -> length (a :: s') <= length s ->
                k (drop_while p s') g = None -> k (a :: s') g = None) ->
  run ic (Star (Cls p)) s g k = k (drop_while p s) g.
Proof.
  intros Hk. change (run ic (Star (Cls p)) s g k)
    with (star_loop (run ic (Cls p)) k (length s) s g).
  apply star_loop_class with (p := p); auto using run_cls_one.
Qed.

Lemma space_not_lparen (a : ascii) : isspace a = true -> Ascii.eqb "(" a = false.
Proof.
  intros H; destruct (Ascii.eqb_spec "("%char a) as [<-|]; [discriminate H | reflexivity].
Qed.

Lemma match_at_paren (s : str) :
  match_at false paren_re s = option_map (fun rest => (rest, None)) (paren_at s).
Proof.
  unfold match_at, paren_re, paren_at.
  change (run false (Cat (Star (Cls isspace))
                         (Cat (Chr "(") (Cat (Star (Cls not_rparen)) (Chr ")")))) s None
              (fun s' g => Some (s', g)))
    with (run false (Star (Cls isspace)) s None
              (fun s1 g1 => run false (Chr "(") s1 g1
                 (fun s2 g2 => run false (Star (Cls not_rparen)) s2 g2
                    (fun s3 g3 => run false (Chr ")") s3 g3 (fun s' g => Some (s', g)))))).
  rewrite run_star_class.
  2:{ intros a s' Ha _ _. rewrite run_chr_one. unfold chr_eq.
      now rewrite (space_not_lparen _ Ha). }
  rewrite run_chr_one. unfold chr_eq.
  destruct (drop_while isspace s) as [|a t]; [reflexivity|].
  destruct (Ascii.eqb "(" a); [|reflexivity].
  rewrite run_star_class.
  2:{ intros b s' Hb _ _. rewrite run_chr_one. unfold chr_eq, not_rparen in *.
      rewrite Ascii.eqb_sym. now destruct (Ascii.eqb b ")"). }
  rewrite run_chr_one. unfold chr_eq.
  destruct (drop_while not_rparen t) as [|b rest] eqn:E; [reflexivity|].
  apply drop_while_head in E. unfold not_rparen in E.
  rewrite Ascii.eqb_sym. destruct (Ascii.eqb b ")"); [reflexivity | discriminate].
Qed.

Lemma run_plus_chr (A : Type) (ic : bool) (c : ascii)
      (s : str) (g : option str) (k : cont A) :
  (forall a s', chr_eq ic c a = true -> length (a :: s') < length s ->
                k (drop_while (chr_eq ic c) s') g = None -> k (a :: s') g = None) ->
  run ic (Plus (Chr c)) s g k =
  match s with
  | a :: s' => if chr_eq ic c a then k (drop_while (chr_eq ic c) s') g else None
  | [] => None
  end.
Proof.
  intros Hk. unfold Plus.
  change (run ic (Cat (Chr c) (Star (Chr c))) s g k)
    with (run ic (Chr c) s g
              (fun s' g' => star_loop (run ic (Chr c)) k (length s') s' g')).
  rewrite run_chr_one. destruct s as [|a s']; [reflexivity|].
  destruct (chr_eq ic c a); [|reflexivity].
  apply star_loop_class with (p := chr_eq ic c); auto using run_chr_one.
  intros b t Hb Hbt; apply Hk; auto. simpl in *; lia.
Qed.

Lemma chr_eq_hash (a : ascii) : chr_eq true "#" a = Ascii.eqb "#" a.
Proof. ascii_cases a. Qed.
Lemma chr_eq_colon (a : ascii) : chr_eq true ":" a = Ascii.eqb ":" a.
Proof. ascii_cases a. Qed.
Lemma chr_eq_dash (a : ascii) : chr_eq true "-" a = Ascii.eqb "-" a.
Proof. ascii_cases a. Qed.
Lemma chr_eq_blank (a : ascii) : chr_eq true " " a = Ascii.eqb " " a.
Proof. ascii_cases a. Qed.
Lemma chr_eq_nl (a : ascii) : chr_eq true nl a = Ascii.eqb nl a.
Proof. ascii_cases a. Qed.
Lemma space_not_G (a : ascii) : isspace a = true -> chr_eq true "G" a = false.
Proof. ascii_cases a. Qed.
Lemma hash_not_space (a : ascii) : Ascii.eqb "#" a = true -> isspace a = false.
Proof. ascii_cases a. Qed.
Lemma hash_not_G (a : ascii) : Ascii.eqb "#" a = true -> chr_eq true "G" a = false.
Proof. ascii_cases a. Qed.
Lemma crnl_not_dash (a : ascii) : cr_or_nl a = true -> Ascii.eqb "-" a = false.
Proof. ascii_cases a. Qed.
Lemma colon_not_crnl (a : ascii) : Ascii.eqb ":" a = true -> cr_or_nl a = false.
Proof. ascii_cases a. Qed.

Lemma drop_while_ext (p q : ascii -> bool) (s : str) :
  (forall a, p a = q a) -> drop_while p s = drop_while q s.
Proof.
  intros H; induction s as [|a s IH]; simpl; [reflexivity|].
  rewrite H, IH; reflexivity.
Qed.

(** The header, for a continuation that wants no line break next. *)
Lemma run_header (A : Type) (s : str) (g : option str) (k : cont A) :
  (forall a s', cr_or_nl a = true -> k (a :: s') g = None) ->
  run true header_re s g k =
  match header_at s with
  | Some s1 => k s1 g
  | None => None
  end.
Proof.
  intros Hk. unfold header_re, header_at.
  set (r3 := Cat (Opt (Chr ":")) (Plus (Cls cr_or_nl))).
  set (r2 := Cat (Word (lit "Grocery List")) r3).
  set (r1 := Cat (Star (Cls isspace)) r2).
  assert (E3 : forall s3, run true r3 s3 g k =
                 match (match s3 with
                        | c :: u => if Ascii.eqb ":" c then u else s3
                        | [] => s3
                        end) with
                 | c :: u => if cr_or_nl c then k (drop_while cr_or_nl u) g else None
                 | [] => None
                 end).
  { intros s3. unfold r3.
    change (run true (Cat (Opt (Chr ":")) (Plus (Cls cr_or_nl))) s3 g k)
      with (match run true (Chr ":") s3 g
                      (fun s' g' => run true (Plus (Cls cr_or_nl)) s' g' k) with
            | Some x => Some x
            | None => run true (Plus (Cls cr_or_nl)) s3 g k
            end).
    assert (EP : forall s4, run true (Plus (Cls cr_or_nl)) s4 g k =
                   match s4 with
                   | c :: u => if cr_or_nl c then k (drop_while cr_or_nl u) g else None
                   | [] => None
                   end).
    { intros s4; apply run_plus_class. intros a s' Ha _ _; now apply Hk. }
    rewrite run_chr_one.
    destruct s3 as [|c u]; [now rewrite EP|].
    rewrite chr_eq_colon.
    destruct (Ascii.eqb ":" c) eqn:Ec; rewrite !EP; [|reflexivity].
    rewrite (colon_not_crnl _ Ec).
    destruct u as [|c' u']; [reflexivity|].
    destruct (cr_or_nl c'); [|reflexivity].
    destruct (k (drop_while cr_or_nl u') g); reflexivity. }
  assert (E2 : forall s2, run true r2 s2 g k =
                 match word_at true (lit "Grocery List") s2 with
                 | Some s3 => run true r3 s3 g k
                 | None => None
                 end).
  { intros s2. unfold r2.
    change (run true (Cat (Word (lit "Grocery List")) r3) s2 g k)
      with (run true (Word (lit "Grocery List")) s2 g
                (fun s' g' => run true r3 s' g' k)).
    apply run_word. }
  assert (E1 : forall s1, run true r1 s1 g k = run true r2 (drop_while isspace s1) g k).
  { intros s1. unfold r1.
    change (run true (Cat (Star (Cls isspace)) r2) s1 g k)
      with (run true (Star (Cls isspace)) s1 g (fun s' g' => run true r2 s' g' k)).
    apply run_star_class. intros a s' Ha _ _. rewrite E2.
    change (word_at true (lit "Grocery List") (a :: s'))
      with (if chr_eq true "G" a then word_at true (lit "rocery List") s' else None).
    now rewrite (space_not_G _ Ha). }
  change (run true (Cat (Plus (Chr "#")) r1) s g k)
    with (run true (Plus (Chr "#")) s g (fun s' g' => run true r1 s' g' k)).
  rewrite run_plus_chr.
  - destruct s as [|a t]; [reflexivity|].
    rewrite chr_eq_hash. destruct (Ascii.eqb "#" a); [|reflexivity].
    rewrite E1, E2, (drop_while_ext (chr_eq true "#") (Ascii.eqb "#")) by apply chr_eq_hash.
    destruct (word_at true (lit "Grocery List")
                      (drop_while isspace (drop_while (Ascii.eqb "#") t)))
      as [s3|]; [|reflexivity].
    rewrite E3.
    destruct (match s3 with
              | c :: u => if Ascii.eqb ":" c then u else s3
              | [] => s3
              end) as [|c u]; [reflexivity|].
    destruct (cr_or_nl c); reflexivity.
  - intros a s' Ha _ _. rewrite chr_eq_hash in Ha. rewrite E1, E2.
    simpl drop_while. rewrite (hash_not_space _ Ha).
    change (word_at true (lit "Grocery List") (a :: s'))
      with (if chr_eq true "G" a then word_at true (lit "rocery List") s' else None).
    now rewrite (hash_not_G _ Ha).
Qed.

Lemma length_line_at (s item r : str) :
  line_at s = Some (item, r) -> length r < length s.
Proof.
  unfold line_at. destruct s as [|a [|b [|c t]]]; try discriminate.
  destruct (Ascii.eqb "-" a && Ascii.eqb " " b && any_char c); [|discriminate].
  intros H; injection H as _ <-.
  pose proof (length_drop_while any_char t) as L.
  destruct (drop_while any_char t) as [|e r']; cbn [length] in *; [lia|].
  match goal with |- context [if ?x then _ else _] => destruct x end;
    cbn [length]; lia.
Qed.

(** One line, for a continuation that accepts all that is shorter. *)
Lemma run_line (A : Type) (s : str) (g : option str) (k : cont A) :
  (forall s', length s' < length s -> k s' g <> None) ->
  run true line_re s g k =
  match line_at s with
  | Some (_, r) => k r g
  | None => None
  end.
Proof.
  intros Hk. unfold line_re, line_at.
  change (run true (Cat (Chr "-") (Cat (Chr " ")
                      (Cat (Plus (Cls any_char)) (Opt (Chr nl))))) s g k)
    with (run true (Chr "-") s g
            (fun s1 g1 => run true (Chr " ") s1 g1
               (fun s2 g2 => run true (Plus (Cls any_char)) s2 g2
                  (fun s3 g3 => match run true (Chr nl) s3 g3 k with
                                | Some x => Some x
                                | None => k s3 g3
                                end)))).
  rewrite run_chr_one. destruct s as [|a [|b t]]; try reflexivity.
  - rewrite chr_eq_dash. destruct (Ascii.eqb "-" a); reflexivity.
  - rewrite chr_eq_dash. destruct (Ascii.eqb "-" a); [|now destruct t].
    rewrite run_chr_one, chr_eq_blank.
    destruct (Ascii.eqb " " b); [|now destruct t].
    rewrite run_plus_class.
    + destruct t as [|c t]; [reflexivity|]. simpl andb.
      destruct (any_char c); [|reflexivity].
      rewrite run_chr_one.
      pose proof (length_drop_while any_char t) as L.
      destruct (drop_while any_char t) as [|e r]; [reflexivity|].
      rewrite chr_eq_nl. destruct (Ascii.eqb nl e); [|reflexivity].
      destruct (k r g) eqn:E; [reflexivity|].
      exfalso; revert E; apply Hk. cbn [length] in *; lia.
    + intros c s' Hc Hlen E. exfalso.
      pose proof (length_drop_while any_char s') as L.
      rewrite run_chr_one in E.
      destruct (drop_while any_char s') as [|e r].
      * revert E; apply Hk. cbn [length] in *; lia.
      * destruct (chr_eq true nl e).
        -- destruct (k r g) eqn:E'; [discriminate|].
           revert E'; apply Hk. cbn [length] in *; lia.
        -- revert E; apply Hk. cbn [length] in *; lia.
Qed.

Lemma star_loop_total (A : Type) (body : str -> option str -> cont A -> option A)
      (k : cont A) (n : nat) (s : str) (g : option str) :
  (forall s', k s' g <> None) -> star_loop body k n s g <> None.
Proof.
  intros Hk. destruct n; simpl; [apply Hk|].
  destruct (body s g _); [discriminate | apply Hk].
Qed.

(** The repetition of lines is greedy: it stops where [lines_at] stops. *)
Lemma star_lines (A : Type) (k : cont A) (g : option str) (n : nat) (s : str) :
  (forall s', k s' g <> None) ->
  length s <= n ->
  star_loop (run true line_re) k n s g = k (snd (lines_at n s)) g.
Proof.
  intros Hk. revert s. induction n as [|n IH]; intros s Hlen; [reflexivity|].
  cbn [star_loop]. rewrite run_line.
  - cbn [lines_at]. destruct (line_at s) as [[item r]|] eqn:El; [|reflexivity].
    pose proof (length_line_at _ _ _ El) as Lr.
    assert (Hlt : (length r <? length s) = true) by now apply Nat.ltb_lt.
    rewrite Hlt, IH by lia.
    destruct (lines_at n r) as [items r']. simpl snd.
    destruct (k r' g) eqn:E; [reflexivity | now apply Hk in E].
  - intros s' Hs'. apply Nat.ltb_lt in Hs'. rewrite Hs'.
    now apply star_loop_total.
Qed.

Lemma match_at_grocery (s : str) :
  match_at true grocery_re s =
  match block_at s with
  | Some (_, block, rest) => Some (rest, Some block)
  | None => None
  end.
Proof.
  unfold match_at, grocery_re, block_at.
  change (run true (Cat header_re (Grp (Plus line_re))) s None
              (fun s' g => Some (s', g)))
    with (run true header_re s None
            (fun s1 g1 => run true line_re s1 g1
               (fun s2 g2 => star_loop (run true line_re)
                  (fun s' _ => Some (s', Some (firstn (length s1 - length s') s1)))
                  (length s2) s2 g2))).
  rewrite run_header.
  - destruct (header_at s) as [s1|]; [|reflexivity].
    cbv beta. rewrite run_line.
    + destruct (line_at s1) as [[item r]|]; [|reflexivity].
      rewrite star_lines by (auto; discriminate). cbv beta.
      destruct (lines_at (length r) r) as [items rest]; reflexivity.
    + intros s' _. apply star_loop_total. discriminate.
  - intros a s' Ha. cbv beta. rewrite run_line.
    + unfold line_at. destruct s' as [|b [|c t]]; try reflexivity.
      now rewrite (crnl_not_dash _ Ha).
    + intros s'' _. apply star_loop_total. discriminate.
Qed.

Lemma firstn_take_while (p : ascii -> bool) (s : str) :
  firstn (length s - length (drop_while p s)) s = take_while p s.
Proof.
  rewrite <- (take_drop_while p s) at 1 3.
  apply firstn_length_app.
Qed.

(** A last group [(c+)] for a class [c], for a continuation that never fails. *)
Lemma run_group_plus_class (A : Type) (ic : bool) (p : ascii -> bool)
      (s : str) (g : option str) (k : cont A) :
  (forall s' g', k s' g' <> None) ->
  run ic (Grp (Plus (Cls p))) s g k =
  match s with
  | a :: t => if p a then k (drop_while p t) (Some (a :: take_while p t)) else None
  | [] => None
  end.
Proof.
  intros Hk.
  change (run ic (Grp (Plus (Cls p))) s g k)
    with (run ic (Plus (Cls p)) s g
              (fun s' _ => k s' (Some (firstn (length s - length s') s)))).
  rewrite run_plus_class.
  - destruct s as [|a t]; [reflexivity|]. destruct (p a) eqn:Ha; [|reflexivity].
    do 2 f_equal.
    enough (E : firstn (length (a :: t) - length (drop_while p (a :: t))) (a :: t)
                = take_while p (a :: t)) by (simpl in E; rewrite Ha in E; exact E).
    apply firstn_take_while.
  - intros a s' _ _ E. now apply Hk in E.
Qed.

Lemma match_at_item (s : str) :
  match_at false item_re s =
  match item_at s with
  | Some (item, rest) => Some (rest, Some item)
  | None => None
  end.
Proof.
  unfold match_at, item_re, item_at.
  change (run false (Cat (Word (lit "- ")) (Grp (Plus (Cls not_nl)))) s None
              (fun s' g => Some (s', g)))
    with (run false (Word (lit "- ")) s None
              (fun s1 g1 => run false (Grp (Plus (Cls not_nl))) s1 g1
                              (fun s' g => Some (s', g)))).
  rewrite run_word.
  destruct s as [|a [|b t]]; try reflexivity.
  - cbn [word_at lit list_ascii_of_string]. unfold chr_eq.
    destruct (Ascii.eqb "-" a); reflexivity.
  - cbn [word_at lit list_ascii_of_string]. unfold chr_eq.
    destruct (Ascii.eqb "-" a); [|now destruct t].
    destruct (Ascii.eqb " " b); [|now destruct t].
    rewrite run_group_plus_class by discriminate.
    destruct t as [|c t]; [reflexivity|]. simpl andb.
    destruct (not_nl c); reflexivity.
Qed.

Lemma match_at_budget (s : str) :
  match_at false budget_re s =
  match budget_at s with
  | Some (ds, rest) => Some (rest, Some ds)
  | None => None
  end.
Proof.
  unfold match_at, budget_re, budget_at.
  change (run false (Cat (Cat (Word (lit "Budget: ")) (Opt (Chr "$")))
                         (Grp (Plus (Cls isdigit)))) s None
              (fun s' g => Some (s', g)))
    with (run false (Word (lit "Budget: ")) s None
            (fun s1 g1 =>
               match run false (Chr "$") s1 g1
                       (fun s2 g2 => run false (Grp (Plus (Cls isdigit))) s2 g2
                                       (fun s' g => Some (s', g))) with
               | Some x => Some x
               | None => run false (Grp (Plus (Cls isdigit))) s1 g1
                             (fun s' g => Some (s', g))
               end)).
  rewrite run_word.
  destruct (word_at false (lit "Budget: ") s) as [s1|]; [|reflexivity].
  rewrite run_chr_one. unfold chr_eq.
  destruct s1 as [|a t].
  - rewrite run_group_plus_class by discriminate. reflexivity.
  - destruct (Ascii.eqb "$" a) eqn:Ea.
    + rewrite !run_group_plus_class by discriminate.
      apply Ascii.eqb_eq in Ea; subst a.
      destruct t as [|d t']; [reflexivity|].
      simpl take_while. simpl drop_while.
      destruct (isdigit d); reflexivity.
    + rewrite run_group_plus_class by discriminate.
      simpl take_while. simpl drop_while.
      destruct (isdigit a); reflexivity.
Qed.

(** ** Searching *)

Lemma first_at_ext (B : Type) (f f' : str -> option B) (s : str) :
  (forall t, f t = f' t) -> first_at f s = first_at f' s.
Proof.
  intros H; induction s as [|a s IH]; simpl; rewrite H; [reflexivity|].
  now rewrite IH.
Qed.

Lemma first_at_none (B : Type) (f : str -> option B) (s : str) :
  first_at f s = None <-> (forall pre post, s = pre ++ post -> f post = None).
Proof.
  induction s as [|a s IH]; simpl.
  - destruct (f []) eqn:E; split; try discriminate; auto.
    + intros H; specialize (H [] [] eq_refl); congruence.
    + intros _ pre post H. symmetry in H; apply app_eq_nil in H as [_ ->]; exact E.
  - destruct (f (a :: s)) eqn:E.
    + split; [discriminate|]. intros H; specialize (H [] (a :: s) eq_refl); congruence.
    + destruct (first_at f s) as [[pre b]|] eqn:E'.
      * split; [discriminate|]. intros H. exfalso.
        assert (X : Some (pre, b) = None); [|discriminate].
        apply IH. intros pre' post ->.
        apply (H (a :: pre') post); reflexivity.
      * split; auto. intros _ pre post H.
        destruct pre as [|a' pre']; simpl in H.
        -- now subst post.
        -- injection H as -> ->.
           apply (proj1 IH eq_refl pre' post); reflexivity.
Qed.

Lemma first_at_some (B : Type) (f : str -> option B) (s pre : str) (b : B) :
  first_at f s = Some (pre, b) <->
  exists post, s = pre ++ post /\ f post = Some b /\
               forall pre1 pre2, pre = pre1 ++ pre2 -> pre2 <> [] -> f (pre2 ++ post) = None.
Proof.
  revert pre; induction s as [|a s IH]; intros pre; simpl.
  - destruct (f []) eqn:E.
    + split.
      * intros H; injection H as <- <-. exists []; repeat split; auto.
        intros pre1 pre2 H; symmetry in H; apply app_eq_nil in H as [_ ->]; congruence.
      * intros (post & H1 & H2 & H3). symmetry in H1; apply app_eq_nil in H1 as [-> ->].
        rewrite E in H2; injection H2 as ->; reflexivity.
    + split; [discriminate|]. intros (post & H1 & H2 & H3).
      symmetry in H1; apply app_eq_nil in H1 as [-> ->].
      rewrite E in H2; discriminate.
  - destruct (f (a :: s)) eqn:E.
    + split.
      * intros H; injection H as <- <-. exists (a :: s); repeat split; auto.
        intros pre1 pre2 H; symmetry in H; apply app_eq_nil in H as [_ ->]; congruence.
      * intros (post & H1 & H2 & H3). destruct pre as [|a' pre'].
        -- simpl in H1; subst post. rewrite E in H2; try discriminate;
           injection H2 as ->; reflexivity.
        -- simpl in H1; injection H1 as <- ->.
           specialize (H3 [] (a :: pre') eq_refl). simpl in H3.
           rewrite H3 in E by discriminate. discriminate.
    + destruct (first_at f s) as [[pre0 b0]|] eqn:E'.
      * split.
        -- intros H; injection H as <- <-.
           destruct (proj1 (IH pre0) eq_refl) as (post & H1 & H2 & H3).
           exists post; repeat split; auto; [now subst s|].
           intros pre1 pre2 Hp Hne. destruct pre1 as [|x pre1]; simpl in Hp.
           ++ subst pre2. simpl. now subst s.
           ++ injection Hp as _ Hp. now apply (H3 pre1 pre2).
        -- intros (post & H1 & H2 & H3). destruct pre as [|a' pre'].
           ++ simpl in H1; subst post. congruence.
           ++ simpl in H1; injection H1 as <- ->.
              assert (X : Some (pre0, b0) = Some (pre', b)).
              { apply IH. exists post; repeat split; auto.
                intros pre1 pre2 Hp Hne. apply (H3 (a :: pre1) pre2); auto.
                now rewrite Hp. }
              now injection X as -> ->.
      * split; [discriminate|]. intros (post & H1 & H2 & H3). destruct pre as [|a' pre'].
        -- simpl in H1; subst post. rewrite E in H2; try discriminate;
           injection H2 as ->; reflexivity.
        -- simpl in H1; injection H1 as <- ->.
           assert (X : @None (str * B) = Some (pre', b)); [|discriminate].
           apply IH. exists post; repeat split; auto.
           intros pre1 pre2 Hp Hne. apply (H3 (a :: pre1) pre2); auto.
           now rewrite Hp.
Qed.


(** [re.search] finds what [first_at] finds. *)
Lemma re_search_first_at (ic : bool) (r : regex) (s : str) :
  re_search ic r s =
  match first_at (match_at ic r) s with
  | Some (pre, (rest, g)) =>
      Some (mkMatch pre (firstn (length s - length pre - length rest)
                                (skipn (length pre) s)) g rest)
  | None => None
  end.
Proof.
  induction s as [|a s IH]; simpl.
  - destruct (match_at ic r []) as [[rest g]|]; reflexivity.
  - destruct (match_at ic r (a :: s)) as [[rest g]|]; [reflexivity|].
    rewrite IH. destruct (first_at (match_at ic r) s) as [[pre [rest g]]|]; reflexivity.
Qed.

Lemma first_at_map (B C : Type) (h : B -> C) (f : str -> option B) (s : str) :
  first_at (fun t => match f t with Some b => Some (h b) | None => None end) s =
  match first_at f s with
  | Some (pre, b) => Some (pre, h b)
  | None => None
  end.
Proof.
  induction s as [|a s IH]; simpl.
  - destruct (f []); reflexivity.
  - destruct (f (a :: s)); [reflexivity|].
    rewrite IH. destruct (first_at f s) as [[pre b]|]; reflexivity.
Qed.

(** [re.search] through the direct reading [f] of a pattern. *)
Lemma re_search_via (B : Type) (ic : bool) (r : regex)
      (f : str -> option B) (h : B -> str * option str) (s : str) :
  (forall t, match_at ic r t = match f t with Some b => Some (h b) | None => None end) ->
  re_search ic r s =
  match first_at f s with
  | Some (pre, b) =>
      Some (mkMatch pre
                    (firstn (length s - length pre - length (fst (h b)))
                            (skipn (length pre) s))
                    (snd (h b)) (fst (h b)))
  | None => None
  end.
Proof.
  intros H. rewrite re_search_first_at.
  rewrite (first_at_ext _ _ _ s H), first_at_map.
  destruct (first_at f s) as [[pre b]|]; [|reflexivity].
  destruct (h b); reflexivity.
Qed.

(** ** [float] on the numbers the patterns capture *)

Lemma span_digits_stop (ds : str) (a : ascii) (t : str) :
  forallb isdigit ds = true -> isdigit a = false ->
  span_digits (ds ++ a :: t) = (ds, a :: t).
Proof.
  intros Hd Ha; induction ds as [|d ds IH]; simpl in *.
  - now rewrite Ha.
  - apply andb_true_iff in Hd as [H1 H2]. rewrite H1, (IH H2). reflexivity.
Qed.

Lemma span_digits_all (ds : str) :
  forallb isdigit ds = true -> span_digits ds = (ds, []).
Proof.
  intros Hd; induction ds as [|d ds IH]; simpl in *; [reflexivity|].
  apply andb_true_iff in Hd as [H1 H2]. rewrite H1, (IH H2). reflexivity.
Qed.

Lemma py_float_digits (ds : str) :
  ds <> [] -> forallb isdigit ds = true ->
  py_float ds = Some (float_of_ratio (digits_val ds) 1).
Proof.
  intros Hne Hd. unfold py_float. rewrite (span_digits_all _ Hd).
  destruct ds; [contradiction | reflexivity].
Qed.

Lemma filter_digits_number (ds : str) (d1 d2 : ascii) :
  forallb isdigit ds = true -> isdigit d1 = true -> isdigit d2 = true ->
  filter isdigit (ds ++ ["."%char; d1; d2]) = ds ++ [d1; d2].
Proof.
  intros Hd H1 H2. rewrite filter_app. simpl. rewrite H1, H2.
  f_equal. induction ds as [|d ds IH]; simpl in *; [reflexivity|].
  apply andb_true_iff in Hd as [Ha Hb]. rewrite Ha, (IH Hb). reflexivity.
Qed.

Lemma py_float_number (ds : str) (d1 d2 : ascii) :
  ds <> [] -> forallb isdigit ds = true -> isdigit d1 = true -> isdigit d2 = true ->
  py_float (ds ++ ["."%char; d1; d2]) = Some (price_value (ds ++ ["."%char; d1; d2])).
Proof.
  intros Hne Hd H1 H2. unfold py_float, price_value.
  rewrite filter_digits_number by assumption.
  rewrite span_digits_stop by (auto; reflexivity).
  destruct ds as [|d ds]; [contradiction|].
  change (Ascii.eqb "." ".") with true. cbv iota.
  assert (E : span_digits [d1; d2] = ([d1; d2], [])).
  { apply span_digits_all. simpl. now rewrite H1, H2. }
  rewrite E. reflexivity.
Qed.

(** ** The price extractor *)

Lemma price_at_text (s num rest : str) :
  price_at s = Some (num, rest) ->
  exists w, s = w ++ rest /\ price_text w num.
Proof.
  unfold price_at. intros H.
  set (s1 := match s with
             | a :: t => if Ascii.eqb "$" a then t else s
             | [] => s
             end) in *.
  assert (Hs : exists cur, s = cur ++ s1 /\ (cur = [] \/ cur = ["$"%char])).
  { subst s1. destruct s as [|a t]; [exists []; auto|].
    destruct (Ascii.eqb_spec "$"%char a) as [<-|]; [exists ["$"%char]| exists []]; auto. }
  destruct Hs as (cur & Hs & Hcur).
  pose proof (take_drop_while isdigit s1) as Hsplit.
  pose proof (take_while_all isdigit s1) as Hall.
  destruct (take_while isdigit s1) as [|d ds] eqn:Et; [discriminate|].
  destruct (drop_while isdigit s1) as [|dot [|d1 [|d2 rest']]]; try discriminate.
  destruct (Ascii.eqb_spec "."%char dot) as [<-|]; [|discriminate].
  destruct (isdigit d1) eqn:E1; [|discriminate].
  destruct (isdigit d2) eqn:E2; [|discriminate].
  simpl in H. injection H as <- <-.
  exists (cur ++ (d :: ds) ++ ["."%char; d1; d2]). split.
  - rewrite Hs, <- Hsplit, <- !app_assoc. reflexivity.
  - exists cur, (d :: ds), d1, d2. repeat split; auto. discriminate.
Qed.


Lemma parse_price_first_at (s : str) :
  _parse_price (PyStr s) =
  match first_at price_at s with
  | Some (_, (num, _)) => py_float num
  | None => Some 0%float
  end.
Proof.
  unfold _parse_price.
  rewrite (re_search_via _ false price_re price_at (fun b => (snd b, Some (fst b)))).
  - destruct (first_at price_at s) as [[pre [num rest]]|]; reflexivity.
  - intros t. rewrite match_at_price. destruct (price_at t) as [[num rest]|]; reflexivity.
Qed.

Lemma parse_price_total (v : pyval) : _parse_price v <> None.
Proof.
  destruct v as [s| | |]; try discriminate.
  rewrite parse_price_first_at.
  destruct (first_at price_at s) as [[pre [num rest]]|] eqn:E; [|discriminate].
  apply first_at_some in E as (post & _ & E & _).
  apply price_at_text in E as (w & _ & cur & ds & d1 & d2 & _ & -> & _ & Hne & Hd & H1 & H2).
  rewrite py_float_number by assumption. discriminate.
Qed.





(** ** The budget *)


Lemma word_at_exact (w s rest : str) :
  word_at false w s = Some rest -> s = w ++ rest.
Proof.
  revert s; induction w as [|c w IH]; intros s; simpl.
  - intros H; now injection H as ->.
  - destruct s as [|a s]; [discriminate|]. unfold chr_eq.
    destruct (Ascii.eqb_spec c a) as [<-|]; [|discriminate].
    intros H; now rewrite (IH _ H).
Qed.

Lemma budget_at_text (s ds rest : str) :
  budget_at s = Some (ds, rest) ->
  exists w, s = w ++ rest /\ budget_text w ds /\ starts_with_digit rest = false.
Proof.
  unfold budget_at. destruct (word_at false (lit "Budget: ") s) as [s1|] eqn:Ew; [|discriminate].
  apply word_at_exact in Ew. intros H.
  set (s2 := match s1 with
             | a :: t => if Ascii.eqb "$" a then t else s1
             | [] => s1
             end) in *.
  assert (Hs : exists cur, s1 = cur ++ s2 /\ (cur = [] \/ cur = ["$"%char])).
  { subst s2. destruct s1 as [|a t]; [exists []; auto|].
    destruct (Ascii.eqb_spec "$"%char a) as [<-|]; [exists ["$"%char]| exists []]; auto. }
  destruct Hs as (cur & Hs & Hcur).
  pose proof (take_drop_while isdigit s2) as Hsplit.
  pose proof (take_while_all isdigit s2) as Hall.
  destruct (take_while isdigit s2) as [|d ds'] eqn:Et; [discriminate|].
  injection H as <- <-.
  exists (lit "Budget: " ++ cur ++ d :: ds'). split; [|split].
  - rewrite Ew, Hs. rewrite <- Hsplit at 1. rewrite <- !app_assoc. reflexivity.
  - exists cur. repeat split; auto. discriminate.
  - destruct (drop_while isdigit s2) as [|a t] eqn:Ed; [reflexivity|].
    simpl. now apply drop_while_head in Ed.
Qed.

Lemma drop_while_stop (p : ascii -> bool) (u post : str) :
  forallb p u = true ->
  match post with a :: _ => p a | [] => false end = false ->
  take_while p (u ++ post) = u /\ drop_while p (u ++ post) = post.
Proof.
  intros Hu Hp. destruct post as [|a t].
  - rewrite app_nil_r. now apply take_while_all_id.
  - split; [now apply take_while_app_stop | now apply drop_while_app_stop].
Qed.


Lemma parse_budget_first_at (s : str) :
  parse_budget s =
  match first_at budget_at s with
  | Some (_, (ds, _)) => py_float ds
  | None => Some 100%float
  end.
Proof.
  unfold parse_budget.
  rewrite (re_search_via _ false budget_re budget_at (fun b => (snd b, Some (fst b)))).
  - destruct (first_at budget_at s) as [[pre [ds rest]]|]; reflexivity.
  - intros t. rewrite match_at_budget. destruct (budget_at t) as [[ds rest]|]; reflexivity.
Qed.






(** ** Pricing *)

Lemma str_eqb_eq (a b : str) : str_eqb a b = true <-> a = b.
Proof.
  unfold str_eqb. destruct (list_eq_dec ascii_dec a b); split; auto; discriminate.
Qed.

Lemma get_price_spec (run_web_search : nat -> str -> pyval) (item : str) :
  exists first price queries,
    get_price run_web_search item = Some (price, queries) /\
    _parse_price (run_web_search 0 (price_query item)) = Some first /\
    (PrimFloat.eqb first 0 = true /\ _extract_item_name item <> item ->
       queries = [price_query item; price_query (_extract_item_name item)] /\
       _parse_price (run_web_search 1 (price_query (_extract_item_name item)))
       = Some price) /\
    (~ (PrimFloat.eqb first 0 = true /\ _extract_item_name item <> item) ->
       queries = [price_query item] /\ price = first).
Proof.
  unfold get_price.
  destruct (_parse_price (run_web_search 0 (price_query item))) as [first|] eqn:E1;
    [|now apply parse_price_total in E1].
  cbn [bind].
  destruct (PrimFloat.eqb first 0) eqn:Ez.
  - destruct (str_eqb (_extract_item_name item) item) eqn:Es; cbn [negb].
    + apply str_eqb_eq in Es.
      exists first, first, [price_query item].
      split; [reflexivity|]. split; [reflexivity|]. split.
      * intros [_ Hne]. contradiction.
      * intros _. now split.
    + destruct (_parse_price (run_web_search 1 (price_query (_extract_item_name item))))
        as [price|] eqn:E2; [|now apply parse_price_total in E2].
      cbn [bind].
      exists first, price, [price_query item; price_query (_extract_item_name item)].
      split; [reflexivity|]. split; [reflexivity|]. split.
      * intros _. now split.
      * intros Hn. exfalso. apply Hn. split; [exact Ez|].
        intros Hx. apply str_eqb_eq in Hx. congruence.
  - exists first, first, [price_query item].
    split; [reflexivity|]. split; [reflexivity|]. split.
    + intros [Hf _]. rewrite Ez in Hf. discriminate.
    + intros _. now split.
Qed.

Lemma sequence_price_tasks (web : nat -> nat -> str -> pyval) (items : list str) :
  forall i0, exists results,
    sequence (price_tasks web i0 items) = Some results /\
    length results = length items /\
    forall i item, nth_error items i = Some item ->
      exists r, nth_error results i = Some r /\ get_price (web (i0 + i)) item = Some r.
Proof.
  induction items as [|item items IH]; intros i0.
  - exists []. repeat split; auto. intros [|i] item H; discriminate.
  - destruct (get_price_spec (web i0) item) as (first & price & queries & Hg & _).
    destruct (IH (S i0)) as (results & Hseq & Hlen & Hnth).
    exists ((price, queries) :: results). cbn [price_tasks sequence].
    rewrite Hg. cbn [bind]. rewrite Hseq. cbn [bind]. repeat split.
    + simpl. now rewrite Hlen.
    + intros [|i] it H; simpl in H.
      * injection H as <-. exists (price, queries). rewrite Nat.add_0_r. now split.
      * destruct (Hnth i it H) as (r & H1 & H2). exists r. split; [exact H1|].
        now rewrite <- plus_n_Sm.
Qed.


(** ** What a priced attempt is made of *)

Lemma price_plan_fields (web : nat -> nat -> str -> pyval) (text : str)
      (items : list str) (p : Priced) :
  price_plan web text items = Some p ->
  p_items p = items /\
  length (p_prices p) = length items /\
  p_total p = py_sum (p_prices p) /\
  p_list_text p =
    join [nl] (map (fun ip => lit "- " ++ fst ip ++ lit ": $" ++ fmt2 (snd ip))
                   (combine items (p_prices p))) /\
  p_narrative p = final_report_text text.
Proof.
  unfold price_plan, gather_prices. intros H.
  destruct (sequence_price_tasks web items 0) as (results & Hseq & Hlen & _).
  rewrite Hseq in H. cbn [bind] in H. injection H as <-. cbn.
  repeat split; auto. now rewrite length_map.
Qed.

(** ** Comparing floats *)

Lemma SFcompare_lt_gt (x y : spec_float) :
  SFcompare x y = Some Lt -> SFcompare y x = Some Gt.
Proof.
  destruct x as [sx|sx| |sx mx ex], y as [sy|sy| |sy my ey]; simpl; intros H;
    try discriminate;
    repeat match goal with b : bool |- _ => destruct b end;
    try discriminate; try reflexivity.
  - rewrite (Z.compare_antisym ex ey). destruct (ex ?= ey)%Z; simpl in *;
      try discriminate; try reflexivity.
    rewrite Pos.compare_cont_spec in *. simpl in *.
    rewrite (Pos.compare_antisym mx my).
    destruct (mx ?= my)%positive; simpl in *; try discriminate; reflexivity.
  - rewrite (Z.compare_antisym ex ey). destruct (ex ?= ey)%Z; simpl in *;
      try discriminate; try reflexivity.
    rewrite Pos.compare_cont_spec in *. simpl in *.
    rewrite (Pos.compare_antisym mx my).
    destruct (mx ?= my)%positive; simpl in *; try discriminate; reflexivity.
Qed.

(** [total > budget] makes the test [total <= budget] fail. *)
Lemma ltb_not_leb (x y : float) :
  PrimFloat.ltb y x = true -> PrimFloat.leb x y = false.
Proof.
  rewrite ltb_spec, leb_spec. unfold SFltb, SFleb.
  destruct (SFcompare (Prim2SF y) (Prim2SF x)) as [[| |]|] eqn:E; try discriminate.
  intros _. now rewrite (SFcompare_lt_gt _ _ E).
Qed.

(** C4, as the code has it.  For ["Milk (1 gallon)", "Rice"] and the stub
    of the specification the fan-out gives the prices [3.50, 0.0] and the
    total 3.50 with one lookup per item: the normalized name of "Rice" is
    "Rice" itself, so no fallback is sent.  For ["Milk (1 gallon)",
    "Rice (2 lb)"], with "no data" for the full query of the rice and
    "$1.20" for the query of "Rice", it gives [3.50, 1.20] and the total
    4.70, with one lookup for the milk and two for the rice, the full query
    and then the fallback. *)
Theorem C4_pricing_example :
  gather_prices rice_stub [lit "Milk (1 gallon)"; lit "Rice"] =
    Some [(3.5%float, [price_query (lit "Milk (1 gallon)")]);
          (0%float, [price_query (lit "Rice")])] /\
  py_sum [3.5%float; 0%float] = 3.5%float /\
  gather_prices rice_2lb_stub [lit "Milk (1 gallon)"; lit "Rice (2 lb)"] =
    Some [(3.5%float, [price_query (lit "Milk (1 gallon)")]);
          (1.2%float, [price_query (lit "Rice (2 lb)"); price_query (lit "Rice")])] /\
  py_sum [3.5%float; 1.2%float] = 4.7%float.
Proof. repeat split; vm_compute; reflexivity. Qed.

(** C4 as the specification words it fails: the fallback for "Rice" is never
    sent, so its price stays 0.0 and the total is 3.50, not 4.70. *)
Lemma C4_counterexample :
  _extract_item_name (lit "Rice") = lit "Rice" /\
  option_map (map snd) (gather_prices rice_stub [lit "Milk (1 gallon)"; lit "Rice"]) =
    Some [[price_query (lit "Milk (1 gallon)")]; [price_query (lit "Rice")]] /\
  option_map (map fst) (gather_prices rice_stub [lit "Milk (1 gallon)"; lit "Rice"]) =
    Some [3.5%float; 0%float] /\
  PrimFloat.eqb 0 1.2 = false /\
  PrimFloat.eqb (py_sum [3.5%float; 0%float]) 4.7 = false.
Proof. repeat split; vm_compute; reflexivity. Qed.

(** ** The retry loop *)

(** An attempt within the budget ends the loop. *)
Lemma for_attempts_accept (w : World) (user_input : str) (budget : float)
      (todo attempt : nat) (current_prompt : str) (calls : list str)
      (items : list str) (p : Priced) :
  grocery_list_items (meal_planner_agent w attempt current_prompt)
  = Some (Some items) ->
  price_plan (web_search_agent w attempt)
             (meal_planner_agent w attempt current_prompt) items = Some p ->
  PrimFloat.leb (p_total p) budget = true ->
  for_attempts w user_input budget (S todo) attempt current_prompt calls =
  Some (mkRun (PyStr (accepted_report p)) (calls ++ [current_prompt])).
Proof.
  intros Hitems Hp Hle. cbn [for_attempts]. unfold attempt_body.
  rewrite Hitems. cbn [bind]. rewrite Hp. cbn [bind]. now rewrite Hle.
Qed.

(** The run of the tool is the run of the loop from any iteration that it
    reaches. *)
Lemma reaches_run (w : World) (user_input : str) (budget : float)
      (attempt : nat) (current_prompt : str) (calls : list str) :
  reaches w user_input budget attempt current_prompt calls ->
  length calls = attempt /\
  forall todo,
    for_attempts w user_input budget (attempt + todo) 0 (initial_prompt user_input) []
    = for_attempts w user_input budget todo attempt current_prompt calls.
Proof.
  induction 1 as [|attempt current_prompt calls prompt' _ [IHlen IH] Hbody].
  - split; reflexivity.
  - split; [rewrite length_app, IHlen; cbn; lia|].
    intros todo. replace (S attempt + todo) with (attempt + S todo) by lia.
    rewrite IH. cbn [for_attempts]. rewrite Hbody. reflexivity.
Qed.

(** C1.  Acceptance.  Whenever the priced total of an attempt that the loop
    reaches is at most the budget, the tool stops there (the planner is not
    called again) and returns the narrative, then the section of the priced
    list: a header with the total and one line per item with its price.
    With the budget 20.0 and plans that cost 25.0 and then 18.0, the tool
    returns after exactly two calls of the planner, with 18.00 as the total
    of its report. *)
Theorem C1_budget_met :
  (forall (w : World) (user_input : str) (budget : float) (attempt : nat)
          (current_prompt : str) (calls : list str) (items : list str) (p : Priced),
      parse_budget user_input = Some budget ->
      reaches w user_input budget attempt current_prompt calls ->
      attempt < max_retries ->
      grocery_list_items (meal_planner_agent w attempt current_prompt)
      = Some (Some items) ->
      price_plan (web_search_agent w attempt)
                 (meal_planner_agent w attempt current_prompt) items = Some p ->
      PrimFloat.leb (p_total p) budget = true ->
      length (p_prices p) = length items /\
      p_total p = py_sum (p_prices p) /\
      length (calls ++ [current_prompt]) = S attempt /\
      orchestrator_tool w user_input =
      Some (mkRun
              (PyStr
                 (final_report_text (meal_planner_agent w attempt current_prompt) ++
                  [nl; nl] ++ lit "---" ++ [nl; nl] ++
                  lit "## 🛒 Priced Grocery List (Total: $" ++ fmt2 (p_total p) ++
                  lit ")" ++ [nl; nl] ++
                  join [nl]
                       (map (fun ip => lit "- " ++ fst ip ++ lit ": $" ++ fmt2 (snd ip))
                            (combine items (p_prices p)))))
              (calls ++ [current_prompt]))) /\
  (exists p1 p2 : Priced,
      parse_budget (lit "Dinner for two. Budget: $20") = Some 20%float /\
      price_plan (web_search_agent accept_world 0)
                 (meal_planner_agent accept_world 0
                    (initial_prompt (lit "Dinner for two. Budget: $20")))
                 [lit "Chicken (2 lb)"; lit "Rice (5 lb)"] = Some p1 /\
      p_total p1 = 25%float /\
      price_plan (web_search_agent accept_world 1)
                 (meal_planner_agent accept_world 1
                    (revision_prompt (lit "Dinner for two. Budget: $20") p1))
                 [lit "Beans (2 cans)"; lit "Rice (5 lb)"] = Some p2 /\
      p_total p2 = 18%float /\
      orchestrator_tool accept_world (lit "Dinner for two. Budget: $20") =
      Some (mkRun
              (PyStr (lit "Plan B

---

## 🛒 Priced Grocery List (Total: $18.00)

- Beans (2 cans): $8.00
- Rice (5 lb): $10.00"))
              [initial_prompt (lit "Dinner for two. Budget: $20");
               revision_prompt (lit "Dinner for two. Budget: $20") p1])).
Proof.
  split.
  - intros w user_input budget attempt current_prompt calls items p
           Hb Hreach Hlt Hitems Hp Hle.
    destruct (price_plan_fields _ _ _ _ Hp) as (_ & Hlen & Htot & Hlist & Hnarr).
    destruct (reaches_run _ _ _ _ _ _ Hreach) as [Hcalls Hrun].
    split; [exact Hlen|]. split; [exact Htot|].
    split; [rewrite length_app, Hcalls; cbn; lia|].
    unfold orchestrator_tool. rewrite Hb. cbn [bind].
    replace max_retries with (attempt + S (max_retries - S attempt)) by lia.
    rewrite Hrun, (for_attempts_accept _ _ _ _ _ _ _ _ _ Hitems Hp Hle).
    unfold accepted_report. rewrite Hlist, Hnarr. reflexivity.
  - eexists. eexists.
    split; [vm_compute; reflexivity|].
    split; [vm_compute; reflexivity|].
    split; [vm_compute; reflexivity|].
    split; [vm_compute; reflexivity|].
    split; [vm_compute; reflexivity|].
    vm_compute; reflexivity.
Qed.

(** The general case of C1 at the second attempt of the example. *)
Lemma C1_budget_met_witness :
  exists report first_prompt second_prompt,
    orchestrator_tool accept_world (lit "Dinner for two. Budget: $20")
    = Some (mkRun (PyStr report) (([] ++ [first_prompt]) ++ [second_prompt])).
Proof.
  eexists. eexists. eexists.
  refine (proj2 (proj2 (proj2
    (proj1 C1_budget_met accept_world (lit "Dinner for two. Budget: $20") 20%float
           1 _ ([] ++ [initial_prompt (lit "Dinner for two. Budget: $20")])
           [lit "Beans (2 cans)"; lit "Rice (5 lb)"]
           (mkPriced [lit "Beans (2 cans)"; lit "Rice (5 lb)"] [8%float; 10%float]
                     [[price_query (lit "Beans (2 cans)")]; [price_query (lit "Rice (5 lb)")]]
                     18%float
                     (lit "- Beans (2 cans): $8.00
- Rice (5 lb): $10.00")
                     (lit "Plan B"))
           _ _ _ _ _ _)))).
  - vm_compute. reflexivity.
  - eapply reaches_next; [apply reaches_first|].
    vm_compute. reflexivity.
  - unfold max_retries. lia.
  - vm_compute. reflexivity.
  - vm_compute. reflexivity.
  - vm_compute. reflexivity.
Defined.

(** C2.  Exhaustion.  If the priced total of each of the three attempts is
    strictly greater than the budget, the tool returns normally, at the third
    attempt, a report that says the budget was not met and carries the total,
    the narrative and the priced list of that last attempt.  With the budget
    10.0 and plans that cost 30.0, 28.0 and 27.0 the reported total is
    27.00. *)
Theorem C2_budget_exhausted :
  (forall (w : World) (user_input : str) (budget : float)
          (items0 items1 items2 : list str) (p0 p1 p2 : Priced),
      parse_budget user_input = Some budget ->
      grocery_list_items (meal_planner_agent w 0 (initial_prompt user_input))
      = Some (Some items0) ->
      price_plan (web_search_agent w 0)
                 (meal_planner_agent w 0 (initial_prompt user_input)) items0 = Some p0 ->
      PrimFloat.ltb budget (p_total p0) = true ->
      grocery_list_items (meal_planner_agent w 1 (revision_prompt user_input p0))
      = Some (Some items1) ->
      price_plan (web_search_agent w 1)
                 (meal_planner_agent w 1 (revision_prompt user_input p0)) items1 = Some p1 ->
      PrimFloat.ltb budget (p_total p1) = true ->
      grocery_list_items (meal_planner_agent w 2 (revision_prompt user_input p1))
      = Some (Some items2) ->
      price_plan (web_search_agent w 2)
                 (meal_planner_agent w 2 (revision_prompt user_input p1)) items2 = Some p2 ->
      PrimFloat.ltb budget (p_total p2) = true ->
      orchestrator_tool w user_input =
      Some (mkRun
              (PyStr
                 (lit "⚠️ **Failed to create a plan within the $" ++ fmt2 budget ++
                  lit " budget after 3 attempts.**" ++ [nl] ++
                  lit "The cheapest plan generated had a cost of $" ++
                  fmt2 (p_total p2) ++ lit "." ++ [nl; nl] ++
                  lit "Here is the final meal plan and its priced list:" ++ [nl] ++
                  final_report_text
                    (meal_planner_agent w 2 (revision_prompt user_input p1)) ++
                  [nl; nl] ++
                  lit "## 🛒 Priced Grocery List (Total: $" ++ fmt2 (p_total p2) ++
                  lit ")" ++ [nl; nl] ++
                  join [nl]
                       (map (fun ip => lit "- " ++ fst ip ++ lit ": $" ++ fmt2 (snd ip))
                            (combine items2 (p_prices p2)))))
              [initial_prompt user_input; revision_prompt user_input p0;
               revision_prompt user_input p1])) /\
  (exists p0 p1 p2 : Priced,
      parse_budget (lit "Dinner for two. Budget: $10") = Some 10%float /\
      price_plan (web_search_agent exhaust_world 0)
                 (meal_planner_agent exhaust_world 0
                    (initial_prompt (lit "Dinner for two. Budget: $10")))
                 [lit "Salmon (2 lb)"; lit "Rice (5 lb)"] = Some p0 /\
      p_total p0 = 30%float /\
      price_plan (web_search_agent exhaust_world 1)
                 (meal_planner_agent exhaust_world 1
                    (revision_prompt (lit "Dinner for two. Budget: $10") p0))
                 [lit "Chicken (3 lb)"; lit "Rice (5 lb)"] = Some p1 /\
      p_total p1 = 28%float /\
      price_plan (web_search_agent exhaust_world 2)
                 (meal_planner_agent exhaust_world 2
                    (revision_prompt (lit "Dinner for two. Budget: $10") p1))
                 [lit "Beans (4 cans)"; lit "Rice (5 lb)"; lit "Eggs (dozen)"] = Some p2 /\
      p_total p2 = 27%float /\
      orchestrator_tool exhaust_world (lit "Dinner for two. Budget: $10") =
      Some (mkRun
              (PyStr (lit "⚠️ **Failed to create a plan within the $10.00 budget after 3 attempts.**
The cheapest plan generated had a cost of $27.00.

Here is the final meal plan and its priced list:
Plan C

## 🛒 Priced Grocery List (Total: $27.00)

- Beans (4 cans): $9.00
- Rice (5 lb): $10.00
- Eggs (dozen): $8.00"))
              [initial_prompt (lit "Dinner for two. Budget: $10");
               revision_prompt (lit "Dinner for two. Budget: $10") p0;
               revision_prompt (lit "Dinner for two. Budget: $10") p1])).
Proof.
  split.
  - intros w user_input budget items0 items1 items2 p0 p1 p2
           Hb Hi0 Hp0 H0 Hi1 Hp1 H1 Hi2 Hp2 H2.
    apply ltb_not_leb in H0, H1, H2.
    destruct (price_plan_fields _ _ _ _ Hp2) as (_ & _ & _ & Hlist & Hnarr).
    unfold orchestrator_tool. rewrite Hb. cbn [bind].
    unfold max_retries. cbn [for_attempts]. unfold attempt_body.
    rewrite Hi0. cbn [bind]. rewrite Hp0. cbn [bind]. rewrite H0.
    change (0 <? max_retries - 1) with true. cbv iota. cbn [bind app].
    rewrite Hi1. cbn [bind]. rewrite Hp1. cbn [bind]. rewrite H1.
    change (1 <? max_retries - 1) with true. cbv iota. cbn [bind app].
    rewrite Hi2. cbn [bind]. rewrite Hp2. cbn [bind]. rewrite H2.
    change (2 <? max_retries - 1) with false. cbv iota. cbn [bind app].
    unfold best_effort_report. rewrite Hlist, Hnarr. reflexivity.
  - eexists. eexists. eexists.
    split; [vm_compute; reflexivity|].
    split; [vm_compute; reflexivity|].
    split; [vm_compute; reflexivity|].
    split; [vm_compute; reflexivity|].
    split; [vm_compute; reflexivity|].
    split; [vm_compute; reflexivity|].
    split; [vm_compute; reflexivity|].
    vm_compute; reflexivity.
Qed.

(** The general case of C2 in the world of the example. *)
Lemma C2_budget_exhausted_witness :
  exists report prompts,
    orchestrator_tool exhaust_world (lit "Dinner for two. Budget: $10")
    = Some (mkRun (PyStr report) prompts) /\ length prompts = 3.
Proof.
  eexists. eexists. split.
  - refine (proj1 C2_budget_exhausted exhaust_world (lit "Dinner for two. Budget: $10")
           10%float
           [lit "Salmon (2 lb)"; lit "Rice (5 lb)"]
           [lit "Chicken (3 lb)"; lit "Rice (5 lb)"]
           [lit "Beans (4 cans)"; lit "Rice (5 lb)"; lit "Eggs (dozen)"]
           (mkPriced [lit "Salmon (2 lb)"; lit "Rice (5 lb)"] [20%float; 10%float]
                     [[price_query (lit "Salmon (2 lb)")]; [price_query (lit "Rice (5 lb)")]]
                     30%float
                     (lit "- Salmon (2 lb): $20.00
- Rice (5 lb): $10.00")
                     (lit "Plan A"))
           (mkPriced [lit "Chicken (3 lb)"; lit "Rice (5 lb)"] [18%float; 10%float]
                     [[price_query (lit "Chicken (3 lb)")]; [price_query (lit "Rice (5 lb)")]]
                     28%float
                     (lit "- Chicken (3 lb): $18.00
- Rice (5 lb): $10.00")
                     (lit "Plan B"))
           (mkPriced [lit "Beans (4 cans)"; lit "Rice (5 lb)"; lit "Eggs (dozen)"]
                     [9%float; 10%float; 8%float]
                     [[price_query (lit "Beans (4 cans)")]; [price_query (lit "Rice (5 lb)")];
                      [price_query (lit "Eggs (dozen)")]]
                     27%float
                     (lit "- Beans (4 cans): $9.00
- Rice (5 lb): $10.00
- Eggs (dozen): $8.00")
                     (lit "Plan C"))
           _ _ _ _ _ _ _ _ _ _); vm_compute; reflexivity.
  - reflexivity.
Defined.

(** ** Deleting the matches of a pattern *)

Lemma sub_loop_step (B : Type) (ic : bool) (r : regex)
      (f : str -> option B) (h : B -> str * option str) (n : nat) (s : str) :
  (forall t, match_at ic r t = match f t with Some b => Some (h b) | None => None end) ->
  (forall t b, f t = Some b -> exists w, w <> [] /\ t = w ++ fst (h b)) ->
  sub_loop ic r (S n) s =
  match first_at f s with
  | Some (pre, b) => pre ++ sub_loop ic r n (fst (h b))
  | None => s
  end.
Proof.
  intros Hm Hf. cbn [sub_loop]. rewrite (re_search_via _ ic r f h s Hm).
  destruct (first_at f s) as [[pre b]|] eqn:E; [|reflexivity].
  cbn [m_text m_before m_after].
  apply first_at_some in E as (post & -> & E & _).
  destruct (Hf _ _ E) as (w & Hw & ->).
  rewrite skipn_app, Nat.sub_diag, skipn_all, skipn_O. cbn [app].
  replace (length (pre ++ w ++ fst (h b)) - length pre - length (fst (h b)))
    with (length w) by (rewrite !length_app; lia).
  rewrite firstn_app, Nat.sub_diag, firstn_all, firstn_O, app_nil_r.
  destruct w; [contradiction | reflexivity].
Qed.

Lemma sub_loop_none (ic : bool) (r : regex) (n : nat) (s : str) :
  re_search ic r s = None -> sub_loop ic r n s = s.
Proof. intros H. destruct n; [reflexivity|]. cbn [sub_loop]. now rewrite H. Qed.

(** ** The normalizer *)

Lemma drop_while_app (p : ascii -> bool) (u v : str) :
  drop_while p (u ++ v) =
  if forallb p u then drop_while p v else drop_while p u ++ v.
Proof.
  induction u as [|a u IH]; simpl; [reflexivity|].
  destruct (p a); simpl; [exact IH | reflexivity].
Qed.

Lemma drop_while_nil_iff (p : ascii -> bool) (s : str) :
  drop_while p s = [] <-> forallb p s = true.
Proof.
  induction s as [|a s IH]; simpl; [tauto|].
  destruct (p a); simpl; [exact IH|]. split; discriminate.
Qed.

Lemma paren_at_split (s rest : str) :
  paren_at s = Some rest ->
  exists ws body,
    s = ws ++ "("%char :: body ++ ")"%char :: rest /\
    forallb isspace ws = true /\ forallb not_rparen body = true.
Proof.
  unfold paren_at. intros H.
  pose proof (take_drop_while isspace s) as Hs.
  pose proof (take_while_all isspace s) as Hws.
  destruct (drop_while isspace s) as [|a t]; [discriminate|].
  destruct (Ascii.eqb_spec "("%char a) as [Ea|]; [subst a|discriminate].
  pose proof (take_drop_while not_rparen t) as Ht.
  pose proof (take_while_all not_rparen t) as Hb.
  destruct (drop_while not_rparen t) as [|b rest'] eqn:Ed; [discriminate|].
  injection H as ->.
  apply drop_while_head in Ed. unfold not_rparen in Ed.
  destruct (Ascii.eqb_spec b ")"%char) as [Eb|]; [subst b|discriminate].
  exists (take_while isspace s), (take_while not_rparen t).
  repeat split; auto. now rewrite Ht.
Qed.

Lemma paren_at_intro (ws body rest : str) :
  forallb isspace ws = true -> forallb not_rparen body = true ->
  paren_at (ws ++ "("%char :: body ++ ")"%char :: rest) = Some rest.
Proof.
  intros Hws Hb. unfold paren_at.
  rewrite drop_while_app_stop by (auto; reflexivity).
  change (Ascii.eqb "(" "(") with true. cbv iota.
  rewrite drop_while_app_stop by (auto; reflexivity). reflexivity.
Qed.

Lemma paren_at_app (s rest v : str) :
  paren_at s = Some rest -> paren_at (s ++ v) = Some (rest ++ v).
Proof.
  intros H. apply paren_at_split in H as (ws & body & -> & Hws & Hb).
  rewrite <- app_assoc. cbn [app]. rewrite <- app_assoc. cbn [app].
  now apply paren_at_intro.
Qed.



Lemma paren_at_has_rparen (post : str) :
  paren_at post <> None -> forallb not_rparen post = false.
Proof.
  intros H. destruct (paren_at post) as [rest|] eqn:E; [|contradiction].
  apply paren_at_split in E as (ws & body & -> & _ & _).
  rewrite forallb_app. cbn [forallb]. rewrite forallb_app. cbn [forallb].
  change (not_rparen ")") with false.
  now rewrite !andb_false_r.
Qed.

(** Left of a match nothing starts a match, whatever follows instead. *)
Lemma paren_at_left (u post x : str) :
  paren_at (u ++ post) = None -> paren_at post <> None -> paren_at (u ++ x) = None.
Proof.
  intros Hnone Hpost. pose proof (paren_at_has_rparen _ Hpost) as Hr.
  unfold paren_at in Hnone |- *.
  rewrite drop_while_app in Hnone |- *.
  destruct (forallb isspace u) eqn:Hu.
  - exfalso. apply Hpost. exact Hnone.
  - destruct (drop_while isspace u) as [|a t] eqn:Ed.
    + apply drop_while_nil_iff in Ed. congruence.
    + cbn [app] in Hnone |- *. destruct (Ascii.eqb "(" a); [|reflexivity].
      rewrite drop_while_app in Hnone |- *.
      destruct (forallb not_rparen t) eqn:Ht.
      * exfalso.
        destruct (drop_while not_rparen post) as [|c r] eqn:E; [|discriminate].
        apply drop_while_nil_iff in E. congruence.
      * destruct (drop_while not_rparen t) as [|c r] eqn:E; [|discriminate].
        apply drop_while_nil_iff in E. congruence.
Qed.

Lemma sub_paren_step (n : nat) (s : str) :
  sub_loop false paren_re (S n) s =
  match first_at paren_at s with
  | Some (pre, rest) => pre ++ sub_loop false paren_re n rest
  | None => s
  end.
Proof.
  rewrite (sub_loop_step _ false paren_re paren_at (fun rest => (rest, None))).
  - destruct (first_at paren_at s) as [[pre rest]|]; reflexivity.
  - intros t. rewrite match_at_paren. destruct (paren_at t); reflexivity.
  - intros t rest H. apply paren_at_split in H as (ws & body & -> & _ & _).
    exists (ws ++ "("%char :: body ++ [")"%char]). split.
    + destruct ws; discriminate.
    + cbn [fst]. rewrite <- app_assoc. cbn [app]. rewrite <- app_assoc. reflexivity.
Qed.

Lemma search_paren_none (s : str) :
  first_at paren_at s = None -> re_search false paren_re s = None.
Proof.
  intros H. rewrite (re_search_via _ false paren_re paren_at (fun rest => (rest, None))).
  - now rewrite H.
  - intros t. rewrite match_at_paren. destruct (paren_at t); reflexivity.
Qed.

(** What deleting the segments leaves has no segment, and only segments
    with the white space before them were deleted. *)
Lemma sub_paren_spec (n : nat) :
  forall s, length s <= n ->
    first_at paren_at (sub_loop false paren_re n s) = None /\
    deletes s (sub_loop false paren_re n s).
Proof.
  induction n as [|n IH]; intros s Hlen.
  - destruct s; [|simpl in Hlen; lia]. split; [reflexivity | constructor].
  - rewrite sub_paren_step.
    destruct (first_at paren_at s) as [[pre rest]|] eqn:E.
    + apply first_at_some in E as (post & -> & Hpost & Hleft).
      pose proof Hpost as Hsplit.
      apply paren_at_split in Hsplit as (ws & body & -> & Hws & Hb).
      destruct (IH rest) as [IH1 IH2].
      { rewrite !length_app in Hlen. cbn [length] in Hlen.
        rewrite length_app in Hlen. cbn [length] in Hlen. lia. }
      split.
      * apply first_at_none. intros a b Hab.
        apply app_eq_app in Hab as [l [[H1 H2]|[H1 H2]]].
        -- destruct l as [|c l].
           ++ rewrite app_nil_r in H1. subst a. cbn [app] in H2. subst b.
              apply (proj1 (first_at_none _ _ _) IH1 []). reflexivity.
           ++ subst b. apply paren_at_left with
                (post := ws ++ "("%char :: body ++ ")"%char :: rest).
              ** apply (Hleft a (c :: l)); [assumption | discriminate].
              ** rewrite Hpost. discriminate.
        -- apply (proj1 (first_at_none _ _ _) IH1 l). exact H2.
      * constructor; auto.
        intros k c Hk. destruct (isspace c) eqn:Hc; [exfalso|reflexivity].
        assert (X : paren_at ([c] ++ ws ++ "("%char :: body ++ ")"%char :: rest) = None)
          by (apply (Hleft k [c]); [assumption | discriminate]).
        change ([c] ++ ws ++ "("%char :: body ++ ")"%char :: rest)
          with ((c :: ws) ++ "("%char :: body ++ ")"%char :: rest) in X.
        rewrite paren_at_intro in X; [discriminate| |assumption].
        cbn [forallb]. now rewrite Hc.
    + split; [assumption | constructor].
Qed.

(** ** [strip] *)

Lemma drop_while_idem (p : ascii -> bool) (s : str) :
  drop_while p (drop_while p s) = drop_while p s.
Proof.
  induction s as [|a s IH]; simpl; [reflexivity|].
  destruct (p a) eqn:E; [exact IH|]. simpl. now rewrite E.
Qed.

Lemma drop_while_snoc (p : ascii -> bool) (s : str) (c : ascii) :
  p c = false -> exists x, drop_while p (s ++ [c]) = x ++ [c].
Proof.
  intros Hc. induction s as [|a s IH]; simpl.
  - rewrite Hc. now exists [].
  - destruct (p a); [exact IH|]. now exists (a :: s).
Qed.

Lemma strip_substring (s : str) : exists a b, s = a ++ strip s ++ b.
Proof.
  unfold strip, rstrip, lstrip.
  exists (take_while isspace s),
         (rev (take_while isspace (rev (drop_while isspace s)))).
  rewrite <- rev_app_distr, take_drop_while, rev_involutive.
  symmetry. apply take_drop_while.
Qed.

Lemma strip_idem (s : str) : strip (strip s) = strip s.
Proof.
  unfold strip, rstrip, lstrip.
  set (u := drop_while isspace s).
  assert (Hu : drop_while isspace u = u) by apply drop_while_idem.
  set (v := drop_while isspace (rev u)).
  assert (Hv : drop_while isspace v = v) by apply drop_while_idem.
  assert (Hrv : drop_while isspace (rev v) = rev v).
  { destruct u as [|c u'] eqn:Eu; [reflexivity|].
    assert (Hc : isspace c = false).
    { cbn [drop_while] in Hu. destruct (isspace c) eqn:Hc; [|reflexivity].
      exfalso. pose proof (length_drop_while isspace u') as L.
      rewrite Hu in L. simpl in L. lia. }
    subst v. cbn [rev].
    destruct (drop_while_snoc isspace (rev u') c Hc) as [x ->].
    rewrite rev_app_distr. cbn [rev app drop_while]. now rewrite Hc. }
  rewrite Hrv, rev_involutive, Hv. reflexivity.
Qed.

Lemma first_at_paren_substring (a s b : str) :
  first_at paren_at (a ++ s ++ b) = None -> first_at paren_at s = None.
Proof.
  intros H. apply first_at_none. intros pre post ->.
  destruct (paren_at post) as [rest|] eqn:E; [exfalso|reflexivity].
  apply (paren_at_app _ _ b) in E.
  rewrite (proj1 (first_at_none _ _ _) H (a ++ pre) (post ++ b)) in E; [discriminate|].
  now rewrite <- !app_assoc.
Qed.




(** C10.  The normalizer is idempotent: a second pass finds no segment to
    delete and nothing to trim. *)
Theorem C10_extract_item_name_idempotent :
  forall s, _extract_item_name (_extract_item_name s) = _extract_item_name s.
Proof.
  intros s. unfold _extract_item_name at 1 3.
  destruct (sub_paren_spec (length s) s (le_n _)) as [H1 _].
  fold (re_sub_empty false paren_re s) in H1.
  set (out := re_sub_empty false paren_re s) in *.
  unfold _extract_item_name. fold out.
  assert (H2 : first_at paren_at (strip out) = None).
  { destruct (strip_substring out) as (a & b & E).
    rewrite E in H1. now apply first_at_paren_substring in H1. }
  unfold re_sub_empty at 1.
  rewrite sub_loop_none by now apply search_paren_none.
  apply strip_idem.
Qed.

(** ** The grocery list *)

Lemma chr_eq_lower (c a : ascii) :
  chr_eq true c a = true <-> lower c = lower a.
Proof. unfold chr_eq. apply Ascii.eqb_eq. Qed.

Lemma word_at_ci_split (w s rest : str) :
  word_at true w s = Some rest ->
  exists u, s = u ++ rest /\ map lower u = map lower w.
Proof.
  revert s; induction w as [|c w IH]; intros s; cbn [word_at].
  - intros H; injection H as ->. now exists [].
  - destruct s as [|a s]; [discriminate|].
    destruct (chr_eq true c a) eqn:E; [|discriminate].
    apply chr_eq_lower in E. intros H.
    destruct (IH _ H) as (u & -> & Hu). exists (a :: u). split; [reflexivity|].
    cbn [map]. now rewrite Hu, E.
Qed.


Lemma header_at_split (s s1 : str) :
  header_at s = Some s1 ->
  exists h, s = h ++ s1 /\ is_header h /\
            match s1 with a :: _ => cr_or_nl a | [] => false end = false.
Proof.
  unfold header_at. destruct s as [|a t]; [discriminate|].
  destruct (Ascii.eqb_spec "#"%char a) as [Ea|]; [subst a|discriminate].
  pose proof (take_drop_while (Ascii.eqb "#") t) as H1.
  pose proof (take_while_all (Ascii.eqb "#") t) as A1.
  set (t1 := drop_while (Ascii.eqb "#") t) in *.
  pose proof (take_drop_while isspace t1) as H2.
  pose proof (take_while_all isspace t1) as A2.
  set (t2 := drop_while isspace t1) in *.
  destruct (word_at true (lit "Grocery List") t2) as [s3|] eqn:Ew; [|discriminate].
  apply word_at_ci_split in Ew as (gl & H3 & A3).
  set (s4 := match s3 with
             | c :: u => if Ascii.eqb ":" c then u else s3
             | [] => s3
             end).
  assert (H4 : exists colon, s3 = colon ++ s4 /\ (colon = [] \/ colon = [":"%char])).
  { subst s4. destruct s3 as [|c u]; [exists []; auto|].
    destruct (Ascii.eqb_spec ":"%char c) as [<-|]; [exists [":"%char]| exists []]; auto. }
  destruct H4 as (colon & H4 & A4).
  destruct s4 as [|c u] eqn:E4; [discriminate|].
  destruct (cr_or_nl c) eqn:Ec; [|discriminate].
  intros H; injection H as <-.
  pose proof (take_drop_while cr_or_nl u) as H5.
  pose proof (take_while_all cr_or_nl u) as A5.
  exists ("#"%char :: take_while (Ascii.eqb "#") t ++ take_while isspace t1 ++ gl ++
            colon ++ c :: take_while cr_or_nl u).
  split; [|split].
  - repeat (progress (cbn [app]) || rewrite <- app_assoc).
    rewrite H5, <- H4, <- H3, H2, H1. reflexivity.
  - exists ("#"%char :: take_while (Ascii.eqb "#") t), (take_while isspace t1), gl, colon,
      (c :: take_while cr_or_nl u).
    refine (conj _ (conj _ (conj _ (conj A2 (conj _ (conj A4 (conj _ _))))))).
    + reflexivity.
    + discriminate.
    + cbn [forallb]. now rewrite A1.
    + rewrite A3. reflexivity.
    + discriminate.
    + cbn [forallb]. now rewrite Ec, A5.
  - destruct (drop_while cr_or_nl u) as [|b r] eqn:E; [reflexivity|].
    now apply drop_while_head in E.
Qed.








Lemma line_at_split (s item r : str) :
  line_at s = Some (item, r) ->
  is_item item /\
  exists e, (e = [nl] \/ (e = [] /\ r = [])) /\ s = lit "- " ++ item ++ e ++ r.
Proof.
  unfold line_at. destruct s as [|a [|b [|c t]]]; try discriminate.
  destruct (Ascii.eqb_spec "-"%char a) as [Ea|]; [subst a|discriminate].
  destruct (Ascii.eqb_spec " "%char b) as [Eb|]; [subst b|discriminate].
  destruct (any_char c) eqn:Hc; [|discriminate]. cbn [andb].
  pose proof (take_drop_while any_char t) as Ht.
  pose proof (take_while_all any_char t) as At.
  intros H. injection H as <- <-. split.
  - split; [discriminate|]. cbn [forallb]. change (not_nl c) with (any_char c).
    rewrite Hc. exact At.
  - destruct (drop_while any_char t) as [|e r'] eqn:Ed.
    + exists []. split; [now right|]. rewrite app_nil_r in Ht. rewrite Ht.
      cbn [app lit list_ascii_of_string]. now rewrite app_nil_r.
    + apply drop_while_head in Ed. unfold any_char in Ed.
      destruct (Ascii.eqb_spec e nl) as [->|]; [|discriminate].
      exists [nl]. split; [now left|].
      cbn. now rewrite <- Ht at 1.
Qed.


Lemma join_cons (sep p : str) (ps : list str) :
  ps <> [] -> join sep (p :: ps) = p ++ sep ++ join sep ps.
Proof. destruct ps; [contradiction | reflexivity]. Qed.

Lemma lines_spec_cons (s item r : str) (items : list str) (rest : str) :
  line_at s = Some (item, r) -> lines_spec r items rest ->
  lines_spec s (item :: items) rest.
Proof.
  intros El (F & Hmax & Hcase).
  destruct (line_at_split _ _ _ El) as (Hitem & e & He & Hs).
  split; [now constructor|]. split; [exact Hmax|]. right.
  split; [discriminate|].
  destruct Hcase as [[-> ->] | (Hne & last_nl & Hr & Hlast)].
  - destruct He as [-> | [-> ->]].
    + exists true. split; [|discriminate].
      rewrite Hs. unfold list_block. cbn [map join].
      now rewrite <- !app_assoc.
    + exists false. split; [|reflexivity].
      rewrite Hs. unfold list_block. cbn [map join].
      now rewrite <- !app_assoc.
  - exists last_nl. split; [|exact Hlast].
    destruct He as [-> | [-> ->]].
    + rewrite Hs, Hr. unfold list_block. cbn [map].
      rewrite join_cons by (destruct items; [contradiction | discriminate]).
      now rewrite <- !app_assoc.
    + exfalso. destruct items as [|i2 items]; [contradiction|].
      apply (f_equal (@length ascii)) in Hr.
      unfold list_block in Hr. cbn [map] in Hr.
      destruct items; cbn [join map] in Hr;
        rewrite !length_app in Hr; cbn in Hr; lia.
Qed.

(** The run of lines that [lines_at] reads. *)
Lemma lines_at_split (n : nat) :
  forall s items rest,
    lines_at n s = (items, rest) -> length s <= n -> lines_spec s items rest.
Proof.
  induction n as [|n IH]; intros s items rest H Hlen.
  - cbn [lines_at] in H. injection H as <- <-.
    destruct s; [|simpl in Hlen; lia]. repeat split; auto.
  - cbn [lines_at] in H. destruct (line_at s) as [[item r]|] eqn:El.
    + destruct (lines_at n r) as [items' r'] eqn:Er. injection H as <- <-.
      pose proof (length_line_at _ _ _ El) as Lr.
      apply (lines_spec_cons _ _ _ _ _ El). apply (IH _ _ _ Er). lia.
    + injection H as <- <-. repeat split; auto.
Qed.

Lemma firstn_length_app_eq (s u v : str) :
  s = u ++ v -> firstn (length s - length v) s = u.
Proof. intros ->. apply firstn_length_app. Qed.

Lemma block_at_split (s : str) (items : list str) (block rest : str) :
  block_at s = Some (items, block, rest) ->
  exists h last_nl,
    s = h ++ block ++ rest /\ is_header h /\
    block = list_block items last_nl /\
    items <> [] /\ Forall is_item items /\
    (last_nl = false -> rest = []) /\ line_at rest = None.
Proof.
  unfold block_at. destruct (header_at s) as [s1|] eqn:Eh; [|discriminate].
  destruct (line_at s1) as [[item r]|] eqn:El; [|discriminate].
  destruct (lines_at (length r) r) as [items' rest'] eqn:Er.
  intros H. injection H as <- <- <-.
  apply header_at_split in Eh as (h & -> & Hh & _).
  pose proof (lines_at_split _ _ _ _ Er (le_n _)) as Hr.
  destruct (lines_spec_cons _ _ _ _ _ El Hr) as (F & Hmax & [[X _]|(Hne & last_nl & Hs & Hlast)]);
    [discriminate|].
  exists h, last_nl.
  split; [now rewrite firstn_length_app_eq with (v := rest') (u := list_block (item :: items') last_nl), <- Hs|].
  split; [exact Hh|].
  split; [now apply firstn_length_app_eq|].
  repeat split; auto.
Qed.




(** ** [re.findall] on the block *)

Lemma item_at_consumes (t item rest : str) :
  item_at t = Some (item, rest) -> exists w, w <> [] /\ t = w ++ rest.
Proof.
  unfold item_at. destruct t as [|a [|b [|c t]]]; try discriminate.
  destruct (Ascii.eqb "-" a && Ascii.eqb " " b && not_nl c); [|discriminate].
  intros H. injection H as <- <-.
  exists (a :: b :: c :: take_while not_nl t). split; [discriminate|].
  cbn [app]. now rewrite take_drop_while.
Qed.

Lemma findall_item_step (n : nat) (s : str) :
  findall_loop false item_re (S n) s =
  match first_at item_at s with
  | Some (_, (item, rest)) => option_map (cons item) (findall_loop false item_re n rest)
  | None => Some []
  end.
Proof.
  cbn [findall_loop].
  rewrite (re_search_via _ false item_re item_at (fun b => (snd b, Some (fst b)))).
  - destruct (first_at item_at s) as [[pre [item rest]]|] eqn:E; [|reflexivity].
    cbn [m_group m_text m_after fst snd].
    apply first_at_some in E as (post & -> & E & _).
    destruct (item_at_consumes _ _ _ E) as (w & Hw & ->).
    rewrite skipn_app, Nat.sub_diag, skipn_all, skipn_O. cbn [app].
    replace (length (pre ++ w ++ rest) - length pre - length rest)
      with (length w) by (rewrite !length_app; lia).
    rewrite firstn_app, Nat.sub_diag, firstn_all, firstn_O, app_nil_r.
    destruct w; [contradiction | reflexivity].
  - intros t. rewrite match_at_item. destruct (item_at t) as [[item rest]|]; reflexivity.
Qed.

Lemma item_at_intro (item y : str) :
  is_item item ->
  match y with a :: _ => not_nl a | [] => false end = false ->
  item_at (lit "- " ++ item ++ y) = Some (item, y).
Proof.
  intros [Hne Hall] Hy. destruct item as [|c item]; [contradiction|].
  cbn [forallb] in Hall. apply andb_true_iff in Hall as [Hc Hall].
  cbn [app lit list_ascii_of_string]. unfold item_at.
  change (Ascii.eqb "-" "-") with true. change (Ascii.eqb " " " ") with true.
  rewrite Hc. cbn [andb].
  destruct (drop_while_stop not_nl item y Hall Hy) as [-> ->]. reflexivity.
Qed.

Lemma findall_skip_nl (n : nat) (s : str) :
  findall_loop false item_re (S n) (nl :: s) = findall_loop false item_re (S n) s.
Proof.
  rewrite !findall_item_step. cbn [first_at].
  assert (E : item_at (nl :: s) = None) by (now destruct s as [|b [|c t]]).
  rewrite E.
  destruct (first_at item_at s) as [[pre [item rest]]|]; reflexivity.
Qed.

Lemma list_block_cons (item : str) (items : list str) (last_nl : bool) :
  exists y,
    list_block (item :: items) last_nl = lit "- " ++ item ++ y /\
    (y = [] \/ y = [nl] /\ items = [] \/
     y = nl :: list_block items last_nl /\ items <> []).
Proof.
  unfold list_block. destruct items as [|i2 items].
  - cbn [map join]. exists (if last_nl then [nl] else []).
    split; [now rewrite <- app_assoc|]. destruct last_nl; auto.
  - exists (nl :: join [nl] (map (fun it => lit "- " ++ it) (i2 :: items)) ++
              (if last_nl then [nl] else [])).
    split.
    + cbn [map]. rewrite join_cons by discriminate. now rewrite <- !app_assoc.
    + right. right. split; [reflexivity | discriminate].
Qed.

Lemma findall_block (items : list str) (last_nl : bool) :
  Forall is_item items ->
  forall n, length (list_block items last_nl) < n ->
    findall_loop false item_re n (list_block items last_nl) = Some items.
Proof.
  induction 1 as [|item items Hi F IH]; intros n Hn.
  - destruct n; [lia|]. rewrite findall_item_step.
    unfold list_block. cbn [map join app]. now destruct last_nl.
  - destruct n; [lia|]. rewrite findall_item_step.
    destruct (list_block_cons item items last_nl) as (y & Hb & Hy).
    rewrite Hb in Hn |- *.
    assert (Hy' : match y with a :: _ => not_nl a | [] => false end = false)
      by (destruct Hy as [-> | [[-> _] | [-> _]]]; reflexivity).
    assert (E : first_at item_at (lit "- " ++ item ++ y) = Some ([], (item, y))).
    { destruct (lit "- " ++ item ++ y) eqn:Es; cbn [first_at];
        rewrite <- Es, (item_at_intro _ _ Hi Hy'); reflexivity. }
    rewrite E.
    rewrite !length_app in Hn. cbn [lit list_ascii_of_string length] in Hn.
    destruct Hy as [-> | [[-> ->] | [-> Hne]]].
    + assert (X : items = []).
      { destruct items as [|i2 items]; [reflexivity|].
        exfalso. apply (f_equal (@length ascii)) in Hb.
        unfold list_block in Hb. cbn [map] in Hb.
        rewrite join_cons in Hb by discriminate.
        rewrite !length_app in Hb. cbn in Hb. lia. }
      subst items. destruct n; [reflexivity|].
      rewrite findall_item_step. reflexivity.
    + destruct n; [reflexivity|]. rewrite findall_item_step. reflexivity.
    + destruct n; [cbn [length] in Hn; lia|].
      rewrite findall_skip_nl, IH; [reflexivity|]. cbn [length] in Hn. lia.
Qed.

Lemma grocery_list_items_first_at (text : str) :
  grocery_list_items text =
  match first_at block_at text with
  | Some (_, (items, _, _)) => Some (Some items)
  | None => Some None
  end.
Proof.
  unfold grocery_list_items.
  rewrite (re_search_via _ true grocery_re block_at
             (fun b => (snd b, Some (snd (fst b))))).
  - destruct (first_at block_at text) as [[pre [[items block] rest]]|] eqn:E;
      [|reflexivity].
    cbn [m_group fst snd bind].
    apply first_at_some in E as (post & _ & E & _).
    apply block_at_split in E as (h & last_nl & _ & _ & -> & Hne & F & _).
    unfold re_findall. rewrite findall_block; auto.
  - intros t. rewrite match_at_grocery.
    destruct (block_at t) as [[[items block] rest]|]; reflexivity.
Qed.




(** ** Removing the list *)












(* ================================================================== *)
(** * Part IV.  The tool as a whole, and the command line              *)
(* ================================================================== *)

(** ** The sign of prices, budgets and totals *)

Lemma shr_1_nonneg (mrs : shr_record) :
  (0 <= shr_m mrs)%Z -> (0 <= shr_m (shr_1 mrs))%Z.
Proof.
  destruct mrs as [m r s]. cbn [shr_m].
  destruct m as [|[p|p|]|[p|p|]]; cbn; lia.
Qed.

Lemma iter_pos_shr_1_nonneg (n : positive) :
  forall mrs, (0 <= shr_m mrs)%Z -> (0 <= shr_m (iter_pos shr_1 n mrs))%Z.
Proof.
  induction n as [n IH|n IH|]; intros mrs H; cbn [iter_pos].
  - apply IH, IH. now apply shr_1_nonneg.
  - apply IH, IH, H.
  - now apply shr_1_nonneg.
Qed.

Lemma shr_fexp_nonneg (m e : Z) (l : location) :
  (0 <= m)%Z -> (0 <= shr_m (fst (shr_fexp prec emax m e l)))%Z.
Proof.
  intros H. unfold shr_fexp, shr.
  assert (H0 : (0 <= shr_m (shr_record_of_loc m l))%Z)
    by (destruct l as [|[| |]]; exact H).
  destruct (fexp prec emax (Zdigits2 m + e) - e)%Z; cbn [fst]; auto.
  now apply iter_pos_shr_1_nonneg.
Qed.

Lemma binary_round_aux_nonneg (mx ex : Z) (lx : location) :
  (0 <= mx)%Z -> sf_nonneg (binary_round_aux prec emax false mx ex lx) = true.
Proof.
  intros H. unfold binary_round_aux.
  pose proof (shr_fexp_nonneg mx ex lx H) as H1.
  destruct (shr_fexp prec emax mx ex lx) as [mrs' e']. cbn [fst] in H1.
  assert (H2 : (0 <= round_nearest_even (shr_m mrs') (loc_of_shr_record mrs'))%Z).
  { unfold round_nearest_even.
    destruct (loc_of_shr_record mrs') as [|[| |]]; try lia.
    destruct (Z.even (shr_m mrs')); lia. }
  pose proof (shr_fexp_nonneg _ e' loc_Exact H2) as H3.
  destruct (shr_fexp prec emax _ e' loc_Exact) as [mrs'' e'']. cbn [fst] in H3.
  destruct (shr_m mrs'') as [|m|m]; [reflexivity| |lia].
  destruct (e'' <=? emax - prec)%Z; reflexivity.
Qed.

Lemma binary_round_nonneg (mx : positive) (ex : Z) :
  sf_nonneg (binary_round prec emax false mx ex) = true.
Proof.
  unfold binary_round.
  destruct (shl_align mx ex _) as [mz ez].
  apply binary_round_aux_nonneg. lia.
Qed.

Lemma binary_normalize_nonneg (m e : Z) :
  (0 <= m)%Z -> sf_nonneg (binary_normalize prec emax m e false) = true.
Proof.
  intros H. destruct m as [|m|m]; cbn [binary_normalize].
  - reflexivity.
  - apply binary_round_nonneg.
  - lia.
Qed.

Lemma SFldexp_nonneg (x : spec_float) (e : Z) :
  sf_nonneg x = true -> sf_nonneg (SFldexp prec emax x e) = true.
Proof.
  destruct x as [s|s| |s m ex]; cbn [SFldexp]; auto.
  destruct s; [discriminate|]. intros _. apply binary_round_nonneg.
Qed.

Lemma SF2Prim_nonneg (m : positive) (e : Z) :
  nonneg (SF2Prim (S754_finite false m e)) = true.
Proof.
  unfold nonneg. cbn [SF2Prim]. unfold Z.ldexp.
  rewrite ldshiftexp_spec. apply SFldexp_nonneg.
  rewrite of_uint63_spec. apply binary_normalize_nonneg.
  apply Uint63.to_Z_bounded.
Qed.

Lemma float_of_ratio_nonneg (p q : Z) : nonneg (float_of_ratio p q) = true.
Proof.
  unfold float_of_ratio.
  destruct (p <=? 0)%Z; [reflexivity|]. cbv zeta.
  match goal with |- context [if (?m <=? 0)%Z then _ else _] =>
    destruct (m <=? 0)%Z end; [reflexivity|].
  apply SF2Prim_nonneg.
Qed.

Lemma SFadd_nonneg (x y : spec_float) :
  sf_nonneg x = true -> sf_nonneg y = true ->
  sf_nonneg (SFadd prec emax x y) = true.
Proof.
  destruct x as [[|]|[|]| |[|] mx ex]; try discriminate;
    destruct y as [[|]|[|]| |[|] my ey]; try discriminate; intros _ _;
    try reflexivity.
  cbn [SFadd cond_Zopp]. apply binary_normalize_nonneg. lia.
Qed.

Lemma add_nonneg (x y : float) :
  nonneg x = true -> nonneg y = true -> nonneg (x + y) = true.
Proof.
  unfold nonneg. rewrite add_spec. apply SFadd_nonneg.
Qed.

Lemma py_sum_nonneg (xs : list float) :
  Forall (fun x => nonneg x = true) xs -> nonneg (py_sum xs) = true.
Proof.
  unfold py_sum. assert (H0 : nonneg 0 = true) by reflexivity.
  revert H0. generalize 0%float as acc.
  induction xs as [|x xs IH]; intros acc Hacc Hxs; cbn [fold_left].
  - exact Hacc.
  - inversion Hxs; subst. apply IH; [|assumption]. now apply add_nonneg.
Qed.

(** A float of that kind compares as at least zero (which not-a-number
    does not). *)
Lemma nonneg_leb (x : float) : nonneg x = true -> PrimFloat.leb 0 x = true.
Proof.
  unfold nonneg. rewrite leb_spec.
  change (Prim2SF 0) with (S754_zero false).
  destruct (Prim2SF x) as [[|]|[|]| |[|] m e]; try discriminate; reflexivity.
Qed.

(** ** Every run of the tool *)

Lemma grocery_list_items_total (text : str) : grocery_list_items text <> None.
Proof.
  rewrite grocery_list_items_first_at.
  destruct (first_at block_at text) as [[pre [[items block] rest]]|]; discriminate.
Qed.

Lemma price_plan_total (web : nat -> nat -> str -> pyval) (text : str)
      (items : list str) : price_plan web text items <> None.
Proof.
  unfold price_plan, gather_prices.
  destruct (sequence_price_tasks web items 0) as (results & -> & _). discriminate.
Qed.

(** One pass through the body of the loop: it does not raise, it goes on
    only before the last attempt, and it returns one of three reports. *)
Lemma attempt_body_cases (w : World) (user_input : str) (budget : float)
      (attempt : nat) (current_prompt : str) :
  attempt <= max_retries - 1 ->
  (exists prompt',
      attempt_body w user_input budget attempt current_prompt = Some (Next prompt') /\
      attempt < max_retries - 1 /\
      reprompt w user_input budget attempt
               (meal_planner_agent w attempt current_prompt) prompt') \/
  (exists report,
      attempt_body w user_input budget attempt current_prompt = Some (Return report) /\
      outcome w budget attempt (meal_planner_agent w attempt current_prompt) report).
Proof.
  intros Hk. unfold attempt_body.
  set (plan := meal_planner_agent w attempt current_prompt).
  destruct (grocery_list_items plan) as [[items|]|] eqn:Eg;
    [| |now apply grocery_list_items_total in Eg]; cbn [bind].
  - destruct (price_plan (web_search_agent w attempt) plan items) as [p|] eqn:Ep;
      [|now apply price_plan_total in Ep]; cbn [bind].
    destruct (PrimFloat.leb (p_total p) budget) eqn:El.
    + right. exists (accepted_report p). split; [reflexivity|].
      now apply outcome_accepted with (items := items).
    + destruct (attempt <? max_retries - 1) eqn:Ea.
      * left. exists (revision_prompt user_input p). apply Nat.ltb_lt in Ea.
        split; [reflexivity|]. split; [exact Ea|].
        now apply reprompt_revision with (items := items).
      * right. exists (best_effort_report budget p). apply Nat.ltb_ge in Ea.
        split; [reflexivity|].
        apply outcome_best_effort with (items := items); auto. lia.
  - destruct (attempt <? max_retries - 1) eqn:Ea.
    + left. exists (format_retry_prompt user_input). apply Nat.ltb_lt in Ea.
      split; [reflexivity|]. split; [exact Ea|]. now apply reprompt_format.
    + right. exists (extraction_error plan). apply Nat.ltb_ge in Ea.
      split; [reflexivity|]. apply outcome_no_list; auto. lia.
Qed.

(** The loop reaches at most [max_retries] iterations. *)
Lemma reaches_bound (w : World) (user_input : str) (budget : float)
      (attempt : nat) (current_prompt : str) (calls : list str) :
  reaches w user_input budget attempt current_prompt calls ->
  attempt <= max_retries - 1.
Proof.
  induction 1 as [|attempt current_prompt calls prompt' _ IH Hbody].
  - cbn. lia.
  - destruct (attempt_body_cases w user_input budget attempt current_prompt IH)
      as [(q & Hq & Hlt & _)|(r & Hr & _)].
    + lia.
    + rewrite Hr in Hbody. discriminate.
Qed.

(** The prompts of a reached iteration: the first is the initial prompt,
    and each later one answers the plan of the call before it. *)
Lemma reaches_prompts (w : World) (user_input : str) (budget : float)
      (attempt : nat) (current_prompt : str) (calls : list str) :
  reaches w user_input budget attempt current_prompt calls ->
  (exists later, calls ++ [current_prompt] = initial_prompt user_input :: later) /\
  forall k prev next,
    nth_error (calls ++ [current_prompt]) k = Some prev ->
    nth_error (calls ++ [current_prompt]) (S k) = Some next ->
    reprompt w user_input budget k (meal_planner_agent w k prev) next.
Proof.
  induction 1 as [|attempt current_prompt calls prompt' Hr [(later & E) IH] Hbody].
  - split; [now exists []|]. intros k prev next _ H. now destruct k.
  - split; [exists (later ++ [prompt']); now rewrite E|].
    intros k prev next Hprev Hnext.
    pose proof (reaches_run _ _ _ _ _ _ Hr) as [Hlen _].
    assert (Hl : length (calls ++ [current_prompt]) = S attempt)
      by (rewrite length_app, Hlen; cbn; lia).
    destruct (Nat.lt_ge_cases (S k) (S attempt)) as [Hlt|Hge].
    + rewrite nth_error_app1 in Hprev, Hnext by lia. now apply IH.
    + assert (Hk : k = attempt).
      { assert (Hn : nth_error ((calls ++ [current_prompt]) ++ [prompt']) (S k) <> None)
          by (rewrite Hnext; discriminate).
        apply nth_error_Some in Hn. rewrite length_app, Hl in Hn. cbn in Hn. lia. }
      subst k.
      rewrite nth_error_app1 in Hprev by lia.
      rewrite nth_error_app2 in Hprev by lia.
      rewrite Hlen, Nat.sub_diag in Hprev. injection Hprev as <-.
      rewrite nth_error_app2 in Hnext by lia.
      rewrite Hl, Nat.sub_diag in Hnext. injection Hnext as <-.
      pose proof (reaches_bound _ _ _ _ _ _ Hr) as Hb.
      destruct (attempt_body_cases w user_input budget attempt current_prompt Hb)
        as [(q & Hq & _ & Hwhy)|(r & Hq & _)];
        rewrite Hq in Hbody; [|discriminate].
      injection Hbody as <-. exact Hwhy.
Qed.

(** From any iteration it reaches, the loop comes to an iteration that
    returns a report. *)
Lemma for_attempts_returns (w : World) (user_input : str) (budget : float)
      (todo : nat) :
  forall (attempt : nat) (current_prompt : str) (calls : list str),
    reaches w user_input budget attempt current_prompt calls ->
    attempt + todo = max_retries - 1 ->
    exists attempt' prompt' calls' report,
      reaches w user_input budget attempt' prompt' calls' /\
      attempt_body w user_input budget attempt' prompt' = Some (Return report) /\
      for_attempts w user_input budget (S todo) attempt current_prompt calls
      = Some (mkRun (PyStr report) (calls' ++ [prompt'])).
Proof.
  induction todo as [|todo IH]; intros attempt current_prompt calls Hr Hsum.
  - assert (Hk : attempt <= max_retries - 1) by lia.
    destruct (attempt_body_cases w user_input budget attempt current_prompt Hk)
      as [(q & Hq & Hlt & _)|(r & Hq & _)]; [lia|].
    exists attempt, current_prompt, calls, r. split; [exact Hr|].
    split; [exact Hq|]. cbn [for_attempts]. rewrite Hq. reflexivity.
  - assert (Hk : attempt <= max_retries - 1) by lia.
    destruct (attempt_body_cases w user_input budget attempt current_prompt Hk)
      as [(q & Hq & Hlt & _)|(r & Hq & _)].
    + destruct (IH (S attempt) q (calls ++ [current_prompt]))
        as (a' & p' & c' & r' & Hr' & Hb' & Hrun);
        [eapply reaches_next; eassumption|lia|].
      exists a', p', c', r'. split; [exact Hr'|]. split; [exact Hb'|].
      change (for_attempts w user_input budget (S (S todo)) attempt current_prompt calls)
        with (st <- attempt_body w user_input budget attempt current_prompt ;;
              match st with
              | Return report => Some (mkRun (PyStr report) (calls ++ [current_prompt]))
              | Next prompt' =>
                  for_attempts w user_input budget (S todo) (S attempt) prompt'
                               (calls ++ [current_prompt])
              end).
      rewrite Hq. cbn [bind]. exact Hrun.
    + exists attempt, current_prompt, calls, r. split; [exact Hr|].
      split; [exact Hq|]. cbn [for_attempts]. rewrite Hq. reflexivity.
Qed.

Lemma py_float_nonneg (s : str) (x : float) :
  py_float s = Some x -> nonneg x = true.
Proof.
  unfold py_float. destruct (span_digits s) as [ip rest].
  destruct ip as [|d ip]; [discriminate|].
  destruct rest as [|c rest'].
  - intros [= <-]. apply float_of_ratio_nonneg.
  - destruct (Ascii.eqb c "."); [|discriminate].
    destruct (span_digits rest') as [fp rest''].
    destruct rest''; [|discriminate].
    intros [= <-]. apply float_of_ratio_nonneg.
Qed.

Lemma parse_price_nonneg (v : pyval) :
  exists price, _parse_price v = Some price /\ nonneg price = true.
Proof.
  destruct (_parse_price v) as [price|] eqn:E; [|now apply parse_price_total in E].
  exists price. split; [reflexivity|].
  destruct v as [s| | |]; try (injection E as <-; reflexivity).
  rewrite parse_price_first_at in E.
  destruct (first_at price_at s) as [[pre [num rest]]|].
  - now apply py_float_nonneg in E.
  - injection E as <-. reflexivity.
Qed.

Lemma parse_budget_nonneg (user_input : str) :
  exists budget, parse_budget user_input = Some budget /\ nonneg budget = true.
Proof.
  rewrite parse_budget_first_at.
  destruct (first_at budget_at user_input) as [[pre [ds rest]]|] eqn:E.
  - apply first_at_some in E as (post & _ & E & _).
    apply budget_at_text in E as (w & _ & (cur & _ & _ & Hne & Hd) & _).
    rewrite (py_float_digits _ Hne Hd). eexists. split; [reflexivity|].
    apply float_of_ratio_nonneg.
  - exists 100%float. split; reflexivity.
Qed.

Lemma get_price_nonneg (run_web_search : nat -> str -> pyval) (item : str)
      (price : float) (queries : list str) :
  get_price run_web_search item = Some (price, queries) -> nonneg price = true.
Proof.
  unfold get_price.
  destruct (parse_price_nonneg (run_web_search 0 (price_query item)))
    as (first & -> & Hfirst). cbn [bind].
  destruct (PrimFloat.eqb first 0); [|now intros [= <- _]].
  destruct (negb _); [|now intros [= <- _]].
  destruct (parse_price_nonneg
              (run_web_search 1 (price_query (_extract_item_name item))))
    as (second & -> & Hsecond). cbn [bind].
  now intros [= <- _].
Qed.

Lemma price_tasks_nonneg (web : nat -> nat -> str -> pyval) (items : list str) :
  forall i results,
    sequence (price_tasks web i items) = Some results ->
    Forall (fun x => nonneg x = true) (map fst results).
Proof.
  induction items as [|item items IH]; intros i results; cbn [price_tasks sequence].
  - intros [= <-]. constructor.
  - destruct (get_price (web i) item) as [[price queries]|] eqn:Eg; [|discriminate].
    cbn [bind].
    destruct (sequence (price_tasks web (S i) items)) as [rs|] eqn:Es; [|discriminate].
    cbn [bind]. intros [= <-]. cbn [map fst]. constructor.
    + now apply get_price_nonneg in Eg.
    + now apply (IH (S i)).
Qed.

Lemma price_plan_nonneg (web : nat -> nat -> str -> pyval) (text : str)
      (items : list str) (p : Priced) :
  price_plan web text items = Some p ->
  Forall (fun x => nonneg x = true) (p_prices p) /\ nonneg (p_total p) = true.
Proof.
  unfold price_plan, gather_prices.
  destruct (sequence (price_tasks web 0 items)) as [results|] eqn:Es; [|discriminate].
  cbn [bind]. intros [= <-]. cbn [p_prices p_total].
  apply price_tasks_nonneg in Es. split; [exact Es|]. now apply py_sum_nonneg.
Qed.

(** X6.  Neither a price, nor the budget, nor the total of a priced list
    is ever negative or not-a-number: [_parse_price] and the reading of
    the budget always return a float that is at least 0.0, and so is every
    price and the sum of the prices of a plan.  The test
    [total_cost <= budget] therefore always compares two numbers. *)
Theorem X6_prices_budget_total_not_negative :
  (forall v : pyval,
      exists price, _parse_price v = Some price /\ PrimFloat.leb 0 price = true) /\
  (forall user_input : str,
      exists budget,
        parse_budget user_input = Some budget /\ PrimFloat.leb 0 budget = true) /\
  (forall (web : nat -> nat -> str -> pyval) (mealplan_text : str) (items : list str),
      exists p,
        price_plan web mealplan_text items = Some p /\
        Forall (fun price => PrimFloat.leb 0 price = true) (p_prices p) /\
        PrimFloat.leb 0 (p_total p) = true).
Proof.
  split; [|split].
  - intros v. destruct (parse_price_nonneg v) as (price & E & H).
    exists price. split; [exact E|]. now apply nonneg_leb.
  - intros user_input. destruct (parse_budget_nonneg user_input) as (b & E & H).
    exists b. split; [exact E|]. now apply nonneg_leb.
  - intros web text items.
    destruct (price_plan web text items) as [p|] eqn:E;
      [|now apply price_plan_total in E].
    exists p. split; [reflexivity|].
    apply price_plan_nonneg in E as [Hp Ht]. split; [|now apply nonneg_leb].
    eapply Forall_impl; [|exact Hp]. intros x. apply nonneg_leb.
Qed.

(** The run of the tool ends in an iteration that it reaches and that
    returns. *)
Lemma orchestrator_tool_run (w : World) (user_input : str) :
  exists budget attempt current_prompt calls report,
    parse_budget user_input = Some budget /\
    reaches w user_input budget attempt current_prompt calls /\
    attempt_body w user_input budget attempt current_prompt = Some (Return report) /\
    orchestrator_tool w user_input
    = Some (mkRun (PyStr report) (calls ++ [current_prompt])).
Proof.
  destruct (parse_budget_nonneg user_input) as (budget & Hb & _).
  destruct (for_attempts_returns w user_input budget (max_retries - 1) 0
                                 (initial_prompt user_input) [])
    as (attempt & prompt & calls & report & Hr & Hbody & Hrun);
    [apply reaches_first|reflexivity|].
  exists budget, attempt, prompt, calls, report.
  split; [exact Hb|]. split; [exact Hr|]. split; [exact Hbody|].
  unfold orchestrator_tool. rewrite Hb. exact Hrun.
Qed.

(** X1.  The tool never raises and never falls off its loop: for every
    input and whatever the two agents answer, it returns a string, after at
    least one and at most [max_retries] = 3 calls of the planner, the first
    of them with the prompt "User's request: <input>.". *)
Theorem X1_tool_returns_within_three_calls (w : World) (user_input : str) :
  exists report later,
    orchestrator_tool w user_input
    = Some (mkRun (PyStr report) (initial_prompt user_input :: later)) /\
    length (initial_prompt user_input :: later) <= max_retries.
Proof.
  destruct (orchestrator_tool_run w user_input)
    as (budget & attempt & prompt & calls & report & _ & Hr & _ & Hrun).
  destruct (reaches_prompts _ _ _ _ _ _ Hr) as ((later & E) & _).
  exists report, later. rewrite <- E. split; [exact Hrun|].
  rewrite length_app. cbn [length].
  destruct (reaches_run _ _ _ _ _ _ Hr) as [-> _].
  apply reaches_bound in Hr. unfold max_retries in *. lia.
Qed.

(** X2.  How a run ends.  The report that the tool returns comes from the
    plan of its last call of the planner and is one of three: the accepted
    report of a plan whose total is at most the budget; or, only at the
    third attempt, the best-effort report of a plan whose total is not at
    most the budget, or the plan itself followed by the extraction error
    when it has no grocery list.  A run of fewer than three calls thus
    always ends with an accepted report. *)
Theorem X2_run_outcome (w : World) (user_input : str) :
  exists budget attempt current_prompt calls report,
    parse_budget user_input = Some budget /\
    orchestrator_tool w user_input
    = Some (mkRun (PyStr report) (calls ++ [current_prompt])) /\
    length calls = attempt /\
    outcome w budget attempt (meal_planner_agent w attempt current_prompt) report.
Proof.
  destruct (orchestrator_tool_run w user_input)
    as (budget & attempt & prompt & calls & report & Hb & Hr & Hbody & Hrun).
  exists budget, attempt, prompt, calls, report.
  split; [exact Hb|]. split; [exact Hrun|].
  split; [apply (reaches_run _ _ _ _ _ _ Hr)|].
  pose proof (reaches_bound _ _ _ _ _ _ Hr) as Hk.
  destruct (attempt_body_cases w user_input budget attempt prompt Hk)
    as [(q & Hq & _)|(r & Hq & Hout)]; rewrite Hq in Hbody; [discriminate|].
  injection Hbody as <-. exact Hout.
Qed.

Lemma format_retry_prompt_end (user_input : str) :
  exists pre, format_retry_prompt user_input = pre ++ user_input.
Proof. unfold format_retry_prompt. eexists. rewrite !app_assoc. reflexivity. Qed.

Lemma revision_prompt_end (user_input : str) (p : Priced) :
  exists pre, revision_prompt user_input p = pre ++ user_input.
Proof.
  unfold revision_prompt. eexists.
  change (?a :: ?b ++ ?c) with ((a :: b) ++ c).
  rewrite !app_assoc. reflexivity.
Qed.

(** X3.  Why and how the planner is called again.  Each prompt after
    the first answers the plan of the call before it: when that plan has no
    grocery list it is the corrective prompt, and otherwise the plan was
    priced, its total is not at most the budget, and the prompt asks for a
    cheaper plan, quoting that total and that priced list.  In both cases
    the prompt ends with the user's request, unchanged. *)
Theorem X3_reprompts (w : World) (user_input : str) :
  exists budget report calls,
    parse_budget user_input = Some budget /\
    orchestrator_tool w user_input = Some (mkRun (PyStr report) calls) /\
    forall k prev next,
      nth_error calls k = Some prev ->
      nth_error calls (S k) = Some next ->
      reprompt w user_input budget k (meal_planner_agent w k prev) next /\
      exists pre, next = pre ++ user_input.
Proof.
  destruct (orchestrator_tool_run w user_input)
    as (budget & attempt & prompt & calls & report & Hb & Hr & _ & Hrun).
  destruct (reaches_prompts _ _ _ _ _ _ Hr) as (_ & Hl).
  exists budget, report, (calls ++ [prompt]).
  split; [exact Hb|]. split; [exact Hrun|].
  intros k prev next Hprev Hnext.
  pose proof (Hl k prev next Hprev Hnext) as Hwhy. split; [exact Hwhy|].
  destruct Hwhy as [_|items p _ _ _].
  - apply format_retry_prompt_end.
  - apply revision_prompt_end.
Qed.

(** ** Lookups that find no price *)

Lemma get_price_zero (run_web_search : nat -> str -> pyval) (item : str) :
  (forall n query, _parse_price (run_web_search n query) = Some 0%float) ->
  exists queries, get_price run_web_search item = Some (0%float, queries).
Proof.
  intros H. unfold get_price. rewrite H. cbn [bind].
  destruct (PrimFloat.eqb 0 0); [|now eexists].
  destruct (negb _); [|now eexists].
  rewrite H. cbn [bind]. now eexists.
Qed.

Lemma price_tasks_zero (web : nat -> nat -> str -> pyval) (items : list str) :
  forall i0,
    (forall i n query, _parse_price (web i n query) = Some 0%float) ->
    exists results,
      sequence (price_tasks web i0 items) = Some results /\
      map fst results = map (fun _ => 0%float) items.
Proof.
  induction items as [|item items IH]; intros i0 H; cbn [price_tasks sequence].
  - now exists [].
  - destruct (get_price_zero (web i0) item (H i0)) as (queries & ->).
    destruct (IH (S i0) H) as (results & -> & E). cbn [bind].
    eexists. split; [reflexivity|]. cbn [map fst]. now rewrite E.
Qed.

Lemma py_sum_zero (items : list str) :
  py_sum (map (fun _ => 0%float) items) = 0%float.
Proof.
  unfold py_sum. induction items as [|item items IH]; [reflexivity|].
  cbn [map fold_left]. exact IH.
Qed.

Lemma priced_list_text_zero (items : list str) :
  priced_list_text items (map (fun _ => 0%float) items)
  = join [nl] (map (fun item => lit "- " ++ item ++ lit ": $0.00") items).
Proof.
  unfold priced_list_text. f_equal.
  induction items as [|item items IH]; [reflexivity|].
  cbn [map combine]. now rewrite IH.
Qed.

(** X5.  Lookups that find no price cost nothing.  When the plan of an
    attempt that the loop reaches has a grocery list and no answer of the
    search agent in that attempt carries a price ([_parse_price] gives 0.0
    for each), the total is 0.00, which no budget is below: the tool
    accepts the plan there, whatever the budget, and reports "Total: $0.00"
    with "$0.00" for every item. *)
Theorem X5_unpriced_plan_accepted
        (w : World) (user_input : str) (budget : float) (attempt : nat)
        (current_prompt : str) (calls : list str) (items : list str) :
  parse_budget user_input = Some budget ->
  reaches w user_input budget attempt current_prompt calls ->
  grocery_list_items (meal_planner_agent w attempt current_prompt)
  = Some (Some items) ->
  (forall i n query,
      _parse_price (web_search_agent w attempt i n query) = Some 0%float) ->
  orchestrator_tool w user_input =
  Some (mkRun
          (PyStr
             (final_report_text (meal_planner_agent w attempt current_prompt) ++
              [nl; nl] ++ lit "---" ++ [nl; nl] ++
              lit "## 🛒 Priced Grocery List (Total: $0.00)" ++ [nl; nl] ++
              join [nl] (map (fun item => lit "- " ++ item ++ lit ": $0.00") items)))
          (calls ++ [current_prompt])).
Proof.
  intros Hb Hreach Hitems Hzero.
  set (plan := meal_planner_agent w attempt current_prompt) in *.
  destruct (price_tasks_zero (web_search_agent w attempt) items 0 Hzero)
    as (results & Hseq & Hprices).
  assert (Hp : price_plan (web_search_agent w attempt) plan items
               = Some (mkPriced items (map (fun _ => 0%float) items)
                                (map snd results) 0%float
                                (join [nl] (map (fun item => lit "- " ++ item ++ lit ": $0.00")
                                                items))
                                (final_report_text plan))).
  { unfold price_plan, gather_prices. rewrite Hseq. cbn [bind].
    now rewrite Hprices, py_sum_zero, priced_list_text_zero. }
  assert (Hle : PrimFloat.leb 0 budget = true).
  { destruct (parse_budget_nonneg user_input) as (b & E & H).
    rewrite Hb in E. injection E as <-. now apply nonneg_leb. }
  destruct (reaches_run _ _ _ _ _ _ Hreach) as [_ Hrun].
  pose proof (reaches_bound _ _ _ _ _ _ Hreach) as Hk.
  unfold orchestrator_tool. rewrite Hb. cbn [bind].
  replace max_retries with (attempt + S (max_retries - S attempt))
    by (unfold max_retries in *; lia).
  rewrite Hrun, (for_attempts_accept _ _ _ _ _ _ _ _ _ Hitems Hp Hle).
  reflexivity.
Qed.

(** X5 for a search agent that finds no price: the first plan is accepted
    at a total of 0.00. *)
Lemma X5_unpriced_plan_accepted_witness :
  orchestrator_tool no_price_world (lit "Dinner for two. Budget: $20") =
  Some (mkRun
          (PyStr (lit "Day 1: rice and beans.

---

## 🛒 Priced Grocery List (Total: $0.00)

- Rice (2 lb): $0.00
- Beans: $0.00"))
          [initial_prompt (lit "Dinner for two. Budget: $20")]).
Proof.
  refine (eq_trans
            (X5_unpriced_plan_accepted no_price_world
               (lit "Dinner for two. Budget: $20") 20%float 0
               (initial_prompt (lit "Dinner for two. Budget: $20")) []
               [lit "Rice (2 lb)"; lit "Beans"] _ _ _ _) _).
  - vm_compute. reflexivity.
  - apply reaches_first.
  - vm_compute. reflexivity.
  - intros i n query. vm_compute. reflexivity.
  - vm_compute. reflexivity.
Defined.

(** ** Plans without a grocery list *)

(** X4.  Three plans without a grocery list.  When the pattern finds no
    list in the first plan nor in the two plans that answer the corrective
    prompt, the tool calls the planner three times (twice with the same
    corrective prompt) and returns the third plan followed by the
    extraction error; no price is looked up. *)
Theorem X4_no_list_after_three_attempts (w : World) (user_input : str) :
  grocery_list_items
    (meal_planner_agent w 0 (initial_prompt user_input)) = Some None ->
  grocery_list_items
    (meal_planner_agent w 1 (format_retry_prompt user_input)) = Some None ->
  grocery_list_items
    (meal_planner_agent w 2 (format_retry_prompt user_input)) = Some None ->
  orchestrator_tool w user_input =
  Some (mkRun
          (PyStr
             (meal_planner_agent w 2 (format_retry_prompt user_input) ++ [nl; nl] ++
              lit "⚠️ **Error: Could not extract a grocery list to check prices after several attempts.**"))
          [initial_prompt user_input; format_retry_prompt user_input;
           format_retry_prompt user_input]).
Proof.
  intros H0 H1 H2.
  destruct (parse_budget_nonneg user_input) as (budget & Hb & _).
  unfold orchestrator_tool. rewrite Hb. cbn [bind].
  unfold max_retries. cbn [for_attempts]. unfold attempt_body.
  rewrite H0. cbn [bind Nat.ltb Nat.leb max_retries Nat.sub].
  rewrite H1. cbn [bind Nat.ltb Nat.leb max_retries Nat.sub].
  rewrite H2. cbn [bind Nat.ltb Nat.leb max_retries Nat.sub].
  reflexivity.
Qed.

(** X4 for a planner that never writes a list. *)
Lemma X4_no_list_after_three_attempts_witness :
  orchestrator_tool no_list_world (lit "Dinner for two. Budget: $20") =
  Some (mkRun
          (PyStr (lit "Day 1: rice and beans. Day 2: rice and beans.

⚠️ **Error: Could not extract a grocery list to check prices after several attempts.**"))
          [initial_prompt (lit "Dinner for two. Budget: $20");
           format_retry_prompt (lit "Dinner for two. Budget: $20");
           format_retry_prompt (lit "Dinner for two. Budget: $20")]).
Proof.
  apply (X4_no_list_after_three_attempts no_list_world
           (lit "Dinner for two. Budget: $20"));
    vm_compute; reflexivity.
Defined.

(** ** Items that the normalizer leaves alone *)







(** ** Reading back a list that is written as the pattern wants it *)










(** ** The prompt of the command line and the budget *)










(** ** A price read and then shown *)
























